(** * HW1/findPoints.py: the point-pair selector

    A shallow embedding of [PointSelector] (src/HW1/findPoints.py): the two
    point lists, the click state, the mouse and key handlers, the redraw,
    the persistence step and [get_points].

    Coordinates are Python floats, i.e. IEEE binary64 values; they are
    modelled by Rocq's primitive [float], whose operations are the binary64
    ones.  The image width [w1] is a Python int.  In [x < self.w1],
    [x >= self.w1], [x - self.w1] and [ptR[0] + self.w1] it meets a float;
    an image width is far below 2^53, so converting it to binary64 is exact
    and the mixed operations are the float operations on the converted
    value.  Calls into matplotlib, json and the console are recorded as a
    trace of effects in program order. *)

From Stdlib Require Import String.
From Stdlib Require Import List ZArith Lia Bool Floats.
Import ListNotations.

Local Open Scope Z_scope.

(** ** Binary64 values *)

Module F64.
Local Open Scope float_scope.

(** [float(n)] for a Python int [n] with [|n| < 2^63]; the conversion is
    exact for [|n| < 2^53], which covers the image width and the constant 5
    of the label offset. *)
Definition float_of_int (n : Z) : float :=
  match n with
  | Z0 => zero
  | Zpos _ => of_uint63 (Uint63.of_Z n)
  | Zneg p => - of_uint63 (Uint63.of_Z (Zpos p))
  end.

(** [np.float32(x)]: the binary64 value rounded to nearest-even in
    binary32 (24-bit mantissa, exponent bound 128). *)
Definition astype_float32 (x : float) : spec_float :=
  match Prim2SF x with
  | S754_finite s m e => binary_normalize 24 128 (cond_Zopp s (Zpos m)) e s
  | sf => sf
  end.
End F64.

Import F64.

(** ** Python list operations *)

Module PyList.
Section Ops.
Context {A : Type}.

(** [l.pop()]: the last element and the list without it; [None] stands
    for the [IndexError] of an empty list. *)
Fixpoint pop (l : list A) : option (A * list A) :=
  match l with
  | [] => None
  | x :: t =>
      match pop t with
      | None => Some (x, [])
      | Some (y, t') => Some (y, x :: t')
      end
  end.

Definition len (l : list A) : Z := Z.of_nat (length l).

(** [enumerate(l, start)] *)
Definition enumerate (start : nat) (l : list A) : list (nat * A) :=
  combine (seq start (length l)) l.

End Ops.

(** [zip] stops at the shorter list, as [combine] does. *)
Definition zip {A B : Type} : list A -> list B -> list (A * B) := @combine A B.
End PyList.

Import PyList.

(** ** The selector object and what it emits *)

Definition Point : Type := float * float.

(** The fields of [self] that the handlers read or write.  [other_name] is
    the file stem computed in [__init__]; [w1] is the width of the left
    (center) image.  The images themselves do not influence the handlers. *)
Record PointSelector : Type := mkSelector {
  num_points : Z;
  other_name : string;
  w1 : Z;
  pts_center : list Point;
  pts_other : list Point;
  click_state : Z
}.

(** A [button_press_event]: either outside this selector's axes
    ([event.inaxes != self.ax]) or inside, with data coordinates. *)
Inductive MouseEvent : Type :=
| OffAxes
| InAxes (xdata ydata : float).

(** What [ax.plot] and [ax.text] add to the axes. *)
Inductive artist : Type :=
| Line (xs ys : float * float)
| Marker (x y : float)
| Text (x y : float) (label : nat).

(** One cleared-and-redrawn axes: the artists on top of the composite image
    and the two numbers of the title. *)
Record Frame : Type := mkFrame {
  artists : list artist;
  title_selected : nat;
  title_total : Z
}.

(** The dictionary handed to [json.dump]. *)
Record JsonData : Type := mkJson {
  image_pair : string;
  points_center : list (list float);
  points_other : list (list float)
}.

(** What is printed, by kind.  A message carries the values handed to the
    format string (a count, the coordinates, a removed tuple), not the text
    the format makes of them. *)
Inductive message : Type :=
| PickedLeft (n : nat) (x y : float)
| PickedRight (n : nat) (x y : float)
| AllSelected
| UndoLeft (removed : Point)
| UndoPair (removedL removedR : Point)
| NothingToUndo
| ResetMsg
| SavedJson
| SavedImage
| Table (rows : list (nat * (Point * Point))).

Inductive effect : Type :=
| Print (m : message)
| Draw (f : Frame)
| ClosePlot
| JsonDump (d : JsonData)
| Savefig (a : list artist).

Inductive exn : Type := IndexError.

(** ** Commands: state, trace and exceptions *)

Record outcome (A : Type) : Type := mkOut {
  result : A + exn;
  state : PointSelector;
  output : list effect
}.
Arguments mkOut {A} _ _ _.
Arguments result {A} _.
Arguments state {A} _.
Arguments output {A} _.

Definition Cmd (A : Type) : Type := PointSelector -> outcome A.

Definition ret {A : Type} (a : A) : Cmd A :=
  fun self => mkOut (inl a) self [].

Definition bind {A B : Type} (c : Cmd A) (k : A -> Cmd B) : Cmd B :=
  fun self =>
    match c self with
    | mkOut (inl a) s t =>
        match k a s with
        | mkOut r s' t' => mkOut r s' (t ++ t')
        end
    | mkOut (inr e) s t => mkOut (inr e) s t
    end.

Declare Scope cmd_scope.
Delimit Scope cmd_scope with cmd.
Notation "x <- c ;; k" := (bind c (fun x => k))
  (at level 61, c at next level, right associativity) : cmd_scope.
Notation "c ;; k" := (bind c (fun _ => k))
  (at level 61, right associativity) : cmd_scope.
Local Open Scope cmd_scope.

Definition get : Cmd PointSelector :=
  fun self => mkOut (inl self) self [].

Definition emit (e : effect) : Cmd unit :=
  fun self => mkOut (inl tt) self [e].

Definition print (m : message) : Cmd unit := emit (Print m).

Definition raise {A : Type} (e : exn) : Cmd A :=
  fun self => mkOut (inr e) self [].

Definition set_pts_center (l : list Point) : Cmd unit :=
  fun self =>
    mkOut (inl tt)
      (mkSelector (num_points self) (other_name self) (w1 self)
         l (pts_other self) (click_state self)) [].

Definition set_pts_other (l : list Point) : Cmd unit :=
  fun self =>
    mkOut (inl tt)
      (mkSelector (num_points self) (other_name self) (w1 self)
         (pts_center self) l (click_state self)) [].

Definition set_click_state (c : Z) : Cmd unit :=
  fun self =>
    mkOut (inl tt)
      (mkSelector (num_points self) (other_name self) (w1 self)
         (pts_center self) (pts_other self) c) [].

(** [self.pts_center.append(p)] and its siblings. *)
Definition append_center (p : Point) : Cmd unit :=
  self <- get ;; set_pts_center (pts_center self ++ [p]).

Definition append_other (p : Point) : Cmd unit :=
  self <- get ;; set_pts_other (pts_other self ++ [p]).

Definition pop_center : Cmd Point :=
  self <- get ;;
  match pop (pts_center self) with
  | Some (p, rest) => set_pts_center rest ;; ret p
  | None => raise IndexError
  end.

Definition pop_other : Cmd Point :=
  self <- get ;;
  match pop (pts_other self) with
  | Some (p, rest) => set_pts_other rest ;; ret p
  | None => raise IndexError
  end.

(** ** The methods of [PointSelector] *)

(** The state part of [__init__]: both lists empty, click state 0. *)
Definition init (n : Z) (name : string) (w : Z) : PointSelector :=
  mkSelector n name w [] [] 0.

(** The body of the loop over [enumerate(zip(pts_center, pts_other), 1)]
    shared by [redraw] and [save_results]: a line, two markers, two labels. *)
Definition pair_artists (w : Z) (item : nat * (Point * Point)) : list artist :=
  let '(i, (ptL, ptR)) := item in
  let '(xL, yL) := ptL in
  let xR := (fst ptR + float_of_int w)%float in
  let yR := snd ptR in
  [ Line (xL, xR) (yL, yR);
    Marker xL yL;
    Marker xR yR;
    Text xL (yL - float_of_int 5)%float i;
    Text xR (yR - float_of_int 5)%float i ].

Definition numbered_pairs (self : PointSelector) : list (nat * (Point * Point)) :=
  enumerate 1 (zip (pts_center self) (pts_other self)).

Definition redraw : Cmd unit :=
  self <- get ;;
  emit (Draw (mkFrame (flat_map (pair_artists (w1 self)) (numbered_pairs self))
                      (length (pts_center self))
                      (num_points self))).

Definition as_float_list (pt : Point) : list float := [fst pt; snd pt].

(** The snapshot is drawn on a figure of its own, saved and closed at once:
    [Savefig] stands for the three steps. *)
Definition save_results : Cmd unit :=
  self <- get ;;
  emit (JsonDump (mkJson (other_name self)
                         (map as_float_list (pts_center self))
                         (map as_float_list (pts_other self)))) ;;
  print SavedJson ;;
  emit (Savefig (flat_map (pair_artists (w1 self)) (numbered_pairs self))) ;;
  print SavedImage ;;
  print (Table (numbered_pairs self)).

Definition onclick (event : MouseEvent) : Cmd unit :=
  match event with
  | OffAxes => ret tt
  | InAxes x y =>
      self <- get ;;
      let w := float_of_int (w1 self) in
      if (click_state self =? 0) && (x <? w)%float then
        append_center (x, y) ;;
        self <- get ;;
        print (PickedLeft (length (pts_center self)) x y) ;;
        set_click_state 1 ;;
        redraw
      else if (click_state self =? 1) && (w <=? x)%float then
        append_other ((x - w)%float, y) ;;
        self <- get ;;
        print (PickedRight (length (pts_other self)) (x - w)%float y) ;;
        set_click_state 0 ;;
        redraw ;;
        self <- get ;;
        if (num_points self <=? len (pts_center self))
           && (num_points self <=? len (pts_other self)) then
          print AllSelected ;;
          emit ClosePlot ;;
          save_results
        else ret tt
      else ret tt
  end.

Definition onkey (key : string) : Cmd unit :=
  if String.eqb key "ctrl+z"%string then
    self <- get ;;
    (if (click_state self =? 1) && (0 <? len (pts_center self)) then
       removed <- pop_center ;;
       print (UndoLeft removed) ;;
       set_click_state 0
     else if (click_state self =? 0) && (0 <? len (pts_other self)) then
       removedR <- pop_other ;;
       removedL <- pop_center ;;
       print (UndoPair removedL removedR)
     else print NothingToUndo) ;;
    redraw
  else if String.eqb key "r"%string then
    set_pts_center [] ;;
    set_pts_other [] ;;
    set_click_state 0 ;;
    print ResetMsg ;;
    redraw
  else ret tt.


(** ** Events and the display loop *)

Inductive event : Type :=
| Click (e : MouseEvent)
| KeyPress (key : string).

(** The two callbacks registered with [mpl_connect]. *)
Definition handle (ev : event) : Cmd unit :=
  match ev with
  | Click e => onclick e
  | KeyPress key => onkey key
  end.

(** The object after the callbacks ran on [events], in order. *)
Definition run (events : list event) (self : PointSelector) : PointSelector :=
  fold_left (fun s ev => state (handle ev s)) events self.

(** The states a selector can be in: as constructed, or after a callback. *)
Inductive reachable : PointSelector -> Prop :=
| reach_init (n : Z) (name : string) (w : Z) : reachable (init n name w)
| reach_step (s : PointSelector) (ev : event) :
    reachable s -> reachable (state (handle ev s)).

Definition is_close (e : effect) : bool :=
  match e with
  | ClosePlot => true
  | _ => false
  end.

Definition closes (t : list effect) : bool := existsb is_close t.

(** [plt.show()]: the figure's event loop.  [events] is what the operator
    does while the window is open; the loop hands each event to its callback
    and ends when the figure is closed, by [plt.close(self.fig)] inside a
    callback or by the operator (the end of [events]).  A closed figure
    delivers nothing, and an exception escaping a callback is reported by
    the loop, which goes on. *)
Fixpoint show (events : list event) : Cmd unit :=
  match events with
  | [] => ret tt
  | ev :: rest =>
      fun self =>
        let o := handle ev self in
        if closes (output o) then mkOut (inl tt) (state o) (output o)
        else
          let o' := show rest (state o) in
          mkOut (inl tt) (state o') (output o ++ output o')
  end.

(** [np.array(pts, dtype=np.float32)]: one row of two single-precision
    numbers per point. *)
Definition np_array_float32 (pts : list Point) : list (list spec_float) :=
  map (fun pt => [astype_float32 (fst pt); astype_float32 (snd pt)]) pts.

Definition get_points (events : list event)
  : Cmd (list (list spec_float) * list (list spec_float)) :=
  show events ;;
  self <- get ;;
  ret (np_array_float32 (pts_center self), np_array_float32 (pts_other self)).

(** [pick_points]: construct the selector, then [get_points]. *)
Definition pick_points (w : Z) (name : string) (n : Z) (events : list event)
  : outcome (list (list spec_float) * list (list spec_float)) :=
  get_points events (init n name w).

(** ** The pairs in click order

    The specification speaks of committed pairs: "a left point and right
    point both recorded, forming one correspondence", numbered in the order
    they were made, and of a dangling left point whose right counterpart has
    not been clicked yet.  [PairSet] keeps exactly that: the committed pairs,
    oldest first, and the pending left point if any.  Its transitions follow
    section 4.2 of the specification, the half of a click being decided as
    in section 3 ([x < width_left] is the left image). *)

Record PairSet : Type := mkPairSet {
  committed : list (Point * Point);
  pending : option Point
}.

Definition register_click (w : float) (x y : float) (ps : PairSet) : PairSet :=
  match pending ps with
  | None =>
      if (x <? w)%float then mkPairSet (committed ps) (Some (x, y)) else ps
  | Some l =>
      if (w <=? x)%float
      then mkPairSet (committed ps ++ [(l, ((x - w)%float, y))]) None
      else ps
  end.

Definition undo (ps : PairSet) : PairSet :=
  match pending ps with
  | Some _ => mkPairSet (committed ps) None
  | None => mkPairSet (removelast (committed ps)) None
  end.

Definition reset (ps : PairSet) : PairSet := mkPairSet [] None.

Definition pair_step (w : Z) (ps : PairSet) (ev : event) : PairSet :=
  match ev with
  | Click OffAxes => ps
  | Click (InAxes x y) => register_click (float_of_int w) x y ps
  | KeyPress key =>
      if String.eqb key "ctrl+z"%string then undo ps
      else if String.eqb key "r"%string then reset ps
      else ps
  end.

Definition pair_run (w : Z) (events : list event) : PairSet :=
  fold_left (pair_step w) events (mkPairSet [] None).

(** The selector's two lists and click state, read as a [PairSet]. *)
Definition represents (ps : PairSet) (s : PointSelector) : Prop :=
  pts_center s
    = map fst (committed ps)
        ++ match pending ps with Some l => [l] | None => [] end
  /\ pts_other s = map snd (committed ps)
  /\ click_state s = match pending ps with Some _ => 1 | None => 0 end.

(** The triple the specification calls [(left_points, right_points, Cursor)]. *)
Definition triple (s : PointSelector) : list Point * list Point * Z :=
  (pts_center s, pts_other s, click_state s).

(** The invariant tying the click state to the two lengths. *)
Definition paired (s : PointSelector) : Prop :=
  (click_state s = 0 /\ length (pts_center s) = length (pts_other s))
  \/ (click_state s = 1 /\ length (pts_center s) = S (length (pts_other s))).

(** The number of committed pairs: the indices present in both lists. *)
Definition committed_count (s : PointSelector) : Z :=
  Z.min (len (pts_center s)) (len (pts_other s)).

(** [s] with its two lists and click state replaced. *)
Definition with_points (s : PointSelector) (l r : list Point) (c : Z)
  : PointSelector :=
  mkSelector (num_points s) (other_name s) (w1 s) l r c.

(** What [json.dump] receives when [save_results] runs in state [s]. *)
Definition json_of (s : PointSelector) : JsonData :=
  mkJson (other_name s) (map as_float_list (pts_center s))
         (map as_float_list (pts_other s)).

(** The ways a callback can go in a state that satisfies [paired], each
    with the outcome the code produces; [handle_cases] below shows that
    there is no other. *)
Inductive callback (s : PointSelector) : event -> outcome unit -> Prop :=
| cb_off :
    callback s (Click OffAxes) (mkOut (inl tt) s [])
| cb_left (x y : float) :
    click_state s = 0 ->
    (x <? float_of_int (w1 s))%float = true ->
    let s' := with_points s (pts_center s ++ [(x, y)]) (pts_other s) 1 in
    callback s (Click (InAxes x y))
      (mkOut (inl tt) s'
         (Print (PickedLeft (length (pts_center s')) x y) :: output (redraw s')))
| cb_right (x y : float) :
    click_state s = 1 ->
    (float_of_int (w1 s) <=? x)%float = true ->
    let q := ((x - float_of_int (w1 s))%float, y) in
    let s' := with_points s (pts_center s) (pts_other s ++ [q]) 0 in
    callback s (Click (InAxes x y))
      (mkOut (inl tt) s'
         (Print (PickedRight (length (pts_other s')) (fst q) y)
            :: output (redraw s')
            ++ (if (num_points s <=? len (pts_center s'))
                   && (num_points s <=? len (pts_other s'))
                then Print AllSelected :: ClosePlot :: output (save_results s')
                else [])))
| cb_wrong_half (x y : float) :
    (click_state s = 0 /\ (x <? float_of_int (w1 s))%float = false)
    \/ (click_state s = 1 /\ (float_of_int (w1 s) <=? x)%float = false) ->
    callback s (Click (InAxes x y)) (mkOut (inl tt) s [])
| cb_undo_left (l : list Point) (p : Point) :
    click_state s = 1 ->
    pts_center s = l ++ [p] ->
    length l = length (pts_other s) ->
    let s' := with_points s l (pts_other s) 0 in
    callback s (KeyPress "ctrl+z")
      (mkOut (inl tt) s' (Print (UndoLeft p) :: output (redraw s')))
| cb_undo_pair (l r : list Point) (p q : Point) :
    click_state s = 0 ->
    pts_center s = l ++ [p] ->
    pts_other s = r ++ [q] ->
    length l = length r ->
    let s' := with_points s l r 0 in
    callback s (KeyPress "ctrl+z")
      (mkOut (inl tt) s' (Print (UndoPair p q) :: output (redraw s')))
| cb_undo_nothing :
    click_state s = 0 ->
    pts_center s = [] ->
    pts_other s = [] ->
    callback s (KeyPress "ctrl+z")
      (mkOut (inl tt) s (Print NothingToUndo :: output (redraw s)))
| cb_reset :
    let s' := with_points s [] [] 0 in
    callback s (KeyPress "r")
      (mkOut (inl tt) s' (Print ResetMsg :: output (redraw s')))
| cb_other_key (key : string) :
    key <> "ctrl+z"%string -> key <> "r"%string ->
    callback s (KeyPress key) (mkOut (inl tt) s []).

(** ** A session used in the examples: a 400-pixel-wide left image *)

Definition coord (n : Z) : float := float_of_int n.

Definition demo (n : Z) : PointSelector := init n "img4"%string 400.

Definition click (x y : Z) : event := Click (InAxes (coord x) (coord y)).

(** The session of the specification's example, one click in: the left
    point (50, 60) is pending. *)
Definition awaiting_right_demo : PointSelector := run [click 50 60] (demo 6).

(** The session of the specification's example with a target of one pair,
    after both clicks: the target is reached. *)
Definition target_reached_demo : PointSelector :=
  run [click 50 60; click 430 70] (demo 1).

(** The session of the specification's example after a third click: one
    committed pair and the pending left point (3, 3). *)
Definition dangling_demo : PointSelector :=
  run [click 50 60; click 430 70; click 3 3] (demo 6).

(** ** What a trace shows and writes *)

(** The frame [redraw] draws in state [s]. *)
Definition frame_of (s : PointSelector) : Frame :=
  mkFrame (flat_map (pair_artists (w1 s)) (numbered_pairs s))
          (length (pts_center s)) (num_points s).

(** The frames drawn in a trace, in order. *)
Definition draws (t : list effect) : list Frame :=
  flat_map (fun e => match e with Draw fr => [fr] | _ => [] end) t.

(** The records written in a trace, in order. *)
Definition dumps (t : list effect) : list JsonData :=
  flat_map (fun e => match e with JsonDump d => [d] | _ => [] end) t.

(** The snapshots saved in a trace, in order. *)
Definition snapshots (t : list effect) : list (list artist) :=
  flat_map (fun e => match e with Savefig a => [a] | _ => [] end) t.

(** The correspondence tables printed in a trace, in order. *)
Definition tables (t : list effect) : list (list (nat * (Point * Point))) :=
  flat_map (fun e => match e with Print (Table rows) => [rows] | _ => [] end) t.

(** ** Images and the composite of [__init__]

    An image is a numpy array of shape (height, width, 3) and dtype uint8:
    its two leading dimensions and its three-channel entry at each row and
    column.  Only entries at indices within the shape are meaningful. *)

Definition pixel : Type := Byte.byte * Byte.byte * Byte.byte.

Record Image : Type := mkImage {
  height : nat;
  width : nat;
  pix : nat -> nat -> pixel
}.

(** [cv2.cvtColor(img, cv2.COLOR_BGR2RGB)]: the first and third channel
    change places. *)
Definition cvtColor_BGR2RGB (img : Image) : Image :=
  mkImage (height img) (width img)
          (fun r c => let '(b, g, r') := pix img r c in (r', g, b)).

(** [np.zeros((h, w, 3), dtype=np.uint8)] *)
Definition np_zeros (h w : nat) : Image :=
  mkImage h w (fun _ _ => (Byte.x00, Byte.x00, Byte.x00)).

(** [dst[r0:r1, c0:c1] = src], for a block that lies within [dst] and has
    the shape of [src] (the two assignments of [__init__] are such). *)
Definition assign_block (dst : Image) (r0 r1 c0 c1 : nat) (src : Image) : Image :=
  mkImage (height dst) (width dst)
          (fun r c =>
             if (r0 <=? r)%nat && (r <? r1)%nat && (c0 <=? c)%nat && (c <? c1)%nat
             then pix src (r - r0) (c - c0)
             else pix dst r c).

(** Lines 14-24 of [__init__]: both images to RGB, then side by side on a
    black canvas as high as the higher one. *)
Definition combined (center_img other_img : Image) : Image :=
  let center_img := cvtColor_BGR2RGB center_img in
  let other_img := cvtColor_BGR2RGB other_img in
  let h1 := height center_img in
  let w1 := width center_img in
  let h2 := height other_img in
  let w2 := width other_img in
  let h := Nat.max h1 h2 in
  let combined := np_zeros h (w1 + w2) in
  let combined := assign_block combined 0 h1 0 w1 center_img in
  assign_block combined 0 h2 w1 (w1 + w2) other_img.

(** ** [PointSelector(...)], [pick_points] on images, and [main]

    [stem] stands for [os.path.splitext(os.path.basename(.))[0]], [imread]
    for [cv2.imread] on the files present ([None] when a file does not
    load), and [operator] for what the operator does in the window opened
    for an image. *)

Section Program.
Variable stem : string -> string.
Variable imread : string -> option Image.
Variable operator : string -> list event.

(** The object [__init__] leaves: the fields of the selector, with the width
    of the center image as [w1]. *)
Definition new_selector (center_img other_img : Image) (other_name : string)
  (num_points : Z) : PointSelector :=
  init num_points (stem other_name)
       (Z.of_nat (width (cvtColor_BGR2RGB center_img))).

Definition pick_points_on (center_img other_img : Image) (other_name : string)
  (num_points : Z) (events : list event)
  : outcome (list (list spec_float) * list (list spec_float)) :=
  get_points events (new_selector center_img other_img other_name num_points).

(** What one turn of the loop of [main] does. *)
Inductive main_step : Type :=
| CenterLoadError
| LoadError (path : string)
| Picking (path : string)
    (session : outcome (list (list spec_float) * list (list spec_float))).

Definition center_path : string := "photos/center.jpg".

Definition other_paths : list string := ["photos/img4.jpg"; "photos/img5.jpg"]%string.

Definition main : list main_step :=
  match imread center_path with
  | None => [CenterLoadError]
  | Some center_img =>
      map (fun path =>
             match imread path with
             | None => LoadError path
             | Some other_img =>
                 Picking path
                   (pick_points_on center_img other_img path 6
                                   (operator path))
             end)
          other_paths
  end.
End Program.

(** Six pairs picked in the window of an image, and the session [main]
    runs for [photos/img4.jpg] when every file loads as a black image 400
    wide, the operator picks these pairs and the stem is left as the path. *)
Definition six_pairs : list event :=
  [click 50 60; click 430 70; click 51 61; click 431 71;
   click 52 62; click 432 72; click 53 63; click 433 73;
   click 54 64; click 434 74; click 55 65; click 435 75].

Definition img4_session
  : outcome (list (list spec_float) * list (list spec_float)) :=
  pick_points_on (fun p : string => p) (np_zeros 300 400) (np_zeros 300 400)
                 "photos/img4.jpg" 6 six_pairs.

(** ** HW1/recordPoints.py: the single-image point recorder *)

Module RecordPoints.

Inductive py_error : Type := ValueError | OverflowError.

(** [int(x)] for a float [x]: the integer part, rounding toward zero; a NaN
    raises [ValueError], an infinity [OverflowError]. *)
Definition int_of_float (x : float) : Z + py_error :=
  match Prim2SF x with
  | S754_zero _ => inl 0
  | S754_finite s m e =>
      let mag := if 0 <=? e then Zpos m * 2 ^ e else Zpos m / 2 ^ (- e) in
      inl (if s then - mag else mag)
  | S754_infinity _ => inr OverflowError
  | S754_nan => inr ValueError
  end.

(** A [button_press_event]: [xdata] and [ydata] are [None] off the axes. *)
Record MouseEvent : Type := mkEvent {
  xdata : option float;
  ydata : option float
}.

Inductive effect : Type :=
| PointSelected (p : Z * Z)
| PlotRedDot (x y : Z)
| DrawFigure
| FinalPoints (l : list (Z * Z)).

(** A call of the callback: the exception it raised if any, the global
    list [points] afterwards, and what it printed and drew. *)
Record outcome : Type := mkOut {
  raised : option py_error;
  points : list (Z * Z);
  output : list effect
}.

Definition onclick (event : MouseEvent) (points : list (Z * Z)) : outcome :=
  match xdata event, ydata event with
  | Some xd, Some yd =>
      match int_of_float xd with
      | inr e => mkOut (Some e) points []
      | inl x =>
          match int_of_float yd with
          | inr e => mkOut (Some e) points []
          | inl y =>
              mkOut None (points ++ [(x, y)])
                    [PointSelected (x, y); PlotRedDot x y; DrawFigure]
          end
      end
  | _, _ => mkOut None points []
  end.

(** The callbacks of [plt.show()] run on [events], from the list [points]
    and the trace so far: an exception escaping a callback is reported by
    the loop, which goes on. *)
Definition deliver (acc : list (Z * Z) * list effect) (event : MouseEvent)
  : list (Z * Z) * list effect :=
  let o := onclick event (fst acc) in
  (points o, snd acc ++ output o).

(** The script from [plt.show()] on, for an image that loaded: the clicks
    made while the window is open, then the final print. *)
Definition script (events : list MouseEvent) : list (Z * Z) * list effect :=
  let done := fold_left deliver events ([], []) in
  (fst done, snd done ++ [FinalPoints (fst done)]).

End RecordPoints.

(** ** Facts about binary64 comparison and subtraction *)

Module F64Facts.
Local Open Scope float_scope.

Lemma SFcompare_antisym (f g : spec_float) :
  SFcompare g f = option_map CompOpp (SFcompare f g).
Proof.
  destruct f as [s|s| |s m e], g as [t|t| |t n k]; simpl; try reflexivity;
    try (destruct s; reflexivity); try (destruct t; reflexivity);
    try (destruct s, t; reflexivity).
  destruct s, t; simpl; try reflexivity;
    rewrite (Z.compare_antisym e k);
    change (Pos.compare_cont Eq n m) with (Pos.compare_cont (CompOpp Eq) n m);
    rewrite <- (Pos.compare_cont_antisym m n Eq);
    destruct (e ?= k)%Z; simpl; try reflexivity;
    destruct (Pos.compare_cont Eq m n); reflexivity.
Qed.

Lemma SFcompare_diag (f : spec_float) :
  f <> S754_nan -> SFcompare f f = Some Eq.
Proof.
  destruct f as [s|s| |s m e]; simpl; intros H; try reflexivity.
  - destruct s; reflexivity.
  - contradiction.
  - destruct s; rewrite Z.compare_refl, Pos.compare_cont_refl; reflexivity.
Qed.

(** A finite float is a zero or a number with a mantissa. *)
Lemma is_finite_Prim2SF (x : float) :
  is_finite x = true ->
  (exists s, Prim2SF x = S754_zero s) \/
  (exists s m e, Prim2SF x = S754_finite s m e).
Proof.
  unfold is_finite, Prim2SF. intros H.
  apply negb_true_iff, orb_false_iff in H. destruct H as [Hn Hi].
  rewrite Hn, Hi.
  destruct (is_zero x); [left; eexists; reflexivity|].
  destruct (Z.frexp x) as [r ex].
  destruct (shr_fexp _ _ _ _ _) as [sh e'].
  destruct (shr_m sh); [left|right|left]; repeat eexists.
Qed.

(** [x < y] excludes [x >= y], NaN included. *)
Lemma ltb_leb_false (x y : float) : (x <? y) = true -> (y <=? x) = false.
Proof.
  rewrite ltb_spec, leb_spec. unfold SFltb, SFleb.
  rewrite (SFcompare_antisym (Prim2SF x) (Prim2SF y)).
  destruct (SFcompare (Prim2SF x) (Prim2SF y)) as [[]|]; simpl; congruence.
Qed.

Lemma leb_ltb_false (x y : float) : (y <=? x) = true -> (x <? y) = false.
Proof.
  intros H. destruct (x <? y) eqn:E; [|reflexivity].
  apply ltb_leb_false in E. congruence.
Qed.

Lemma ltb_diag (x : float) : (x <? x) = false.
Proof.
  rewrite ltb_spec. unfold SFltb.
  destruct (Prim2SF x) as [s|s| |s m e] eqn:E; simpl; try reflexivity.
  - destruct s; reflexivity.
  - destruct s; rewrite Z.compare_refl, Pos.compare_cont_refl; reflexivity.
Qed.

Lemma leb_diag (x : float) : is_finite x = true -> (x <=? x) = true.
Proof.
  intros H. rewrite leb_spec. unfold SFleb.
  rewrite SFcompare_diag; [reflexivity|].
  destruct (is_finite_Prim2SF x H) as [[s E]|[s [m [e E]]]];
    rewrite E; discriminate.
Qed.

Lemma sub_diag (x : float) : is_finite x = true -> x - x = zero.
Proof.
  intros H. apply Prim2SF_inj. rewrite sub_spec.
  destruct (is_finite_Prim2SF x H) as [[s E]|[s [m [e E]]]]; rewrite E.
  - destruct s; reflexivity.
  - unfold SF64sub, SFsub. rewrite Z.sub_diag. reflexivity.
Qed.

End F64Facts.

(** ** Image widths as floats *)

Module F64Width.
Import F64Facts.

(** A float with a mantissa is finite. *)
Lemma Prim2SF_finite_is_finite (x : float) (s : bool) (m : positive) (e : Z) :
  Prim2SF x = S754_finite s m e -> is_finite x = true.
Proof.
  intros E. unfold is_finite, is_nan, is_infinity.
  rewrite !eqb_spec, abs_spec, E. unfold SFeqb.
  rewrite SFcompare_diag by discriminate.
  reflexivity.
Qed.

Lemma digits2_pos_size (p : positive) : digits2_pos p = Pos.size p.
Proof. induction p; cbn; congruence. Qed.

Lemma digits2_pos_iter_xO (p k : positive) :
  digits2_pos (Pos.iter xO p k) = (digits2_pos p + k)%positive.
Proof.
  induction k as [|k IH] using Pos.peano_ind.
  - cbn. lia.
  - rewrite Pos.iter_succ. cbn [digits2_pos]. rewrite IH. lia.
Qed.

Lemma digits2_pos_bound (p : positive) :
  Zpos p < 2 ^ 53 -> Zpos (digits2_pos p) <= 53.
Proof.
  intros H. rewrite digits2_pos_size.
  pose proof (Pos.size_le p) as L.
  assert (2 ^ Zpos (Pos.size p) <= 2 * Zpos p) as L'.
  { rewrite <- Pos2Z.inj_pow. change (2 * Zpos p) with (Zpos p~0). exact L. }
  destruct (Z_le_gt_dec (Zpos (Pos.size p)) 53) as [?|G]; [assumption|].
  assert (2 ^ 54 <= 2 ^ Zpos (Pos.size p)) by (apply Z.pow_le_mono_r; lia).
  change (2 ^ 54) with (2 * 2 ^ 53) in *. lia.
Qed.

(** An integer below 2^53 fits the mantissa: no rounding, no overflow. *)
Lemma binary_normalize_small (p : positive) :
  Zpos p < 2 ^ 53 ->
  exists m e, binary_normalize prec emax (Zpos p) 0 false = S754_finite false m e.
Proof.
  intros H. pose proof (digits2_pos_bound p H) as D.
  unfold binary_normalize, binary_round.
  set (d := digits2_pos p) in *.
  assert (Hf : fexp prec emax (Zpos d + 0) = Zpos d - 53).
  { unfold fexp, emin, prec, emax. lia. }
  rewrite Hf.
  assert (exists mz, shl_align p 0 (Zpos d - 53) = (mz, Zpos d - 53)
                     /\ Zpos (digits2_pos mz) = 53) as (mz & Hs & Hd).
  { unfold shl_align. rewrite Z.sub_0_r.
    destruct (Zpos d - 53) as [|q|q] eqn:Eq.
    - exists p. split; [reflexivity|]. fold d. lia.
    - lia.
    - exists (Pos.iter xO p q). split; [reflexivity|].
      rewrite digits2_pos_iter_xO. fold d. lia. }
  rewrite Hs. unfold binary_round_aux.
  assert (Hsh : forall l, l = loc_Exact ->
            shr_fexp prec emax (Zpos mz) (Zpos d - 53) l
            = ({| shr_m := Zpos mz; shr_r := false; shr_s := false |}, Zpos d - 53)).
  { intros l ->. unfold shr_fexp, Zdigits2. rewrite Hd.
    replace (fexp prec emax (53 + (Zpos d - 53)) - (Zpos d - 53)) with 0.
    - reflexivity.
    - unfold fexp, emin, prec, emax. lia. }
  rewrite (Hsh _ eq_refl). cbn [shr_m loc_of_shr_record round_nearest_even].
  rewrite (Hsh _ eq_refl). cbn [shr_m].
  replace (Zpos d - 53 <=? emax - prec) with true.
  - eauto.
  - symmetry. apply Z.leb_le. unfold emax, prec. lia.
Qed.

(** Every image width converts to a finite float. *)
Lemma float_of_int_finite (w : Z) :
  0 <= w < 2 ^ 53 -> is_finite (float_of_int w) = true.
Proof.
  intros [H0 H1]. destruct w as [|p|p]; [reflexivity| |lia].
  unfold float_of_int.
  destruct (binary_normalize_small p H1) as (m & e & E).
  apply (Prim2SF_finite_is_finite _ false m e).
  rewrite of_uint63_spec, Uint63.of_Z_spec, Z.mod_small; [exact E|].
  split; [lia|]. assert (2 ^ 53 < Uint63Axioms.wB) by reflexivity. lia.
Qed.
End F64Width.

(** ** Facts about [pop] *)

Module PyListFacts.
Section Ops.
Context {A : Type}.

Lemma pop_app (l : list A) (x : A) : pop (l ++ [x]) = Some (x, l).
Proof.
  induction l as [|a l IH]; simpl; [reflexivity|].
  rewrite IH. reflexivity.
Qed.

Lemma pop_nil_iff (l : list A) : pop l = None <-> l = [].
Proof.
  destruct l as [|a l]; simpl; [tauto|].
  split; [|discriminate].
  destruct (pop l) as [[y t]|]; discriminate.
Qed.

Lemma pop_some (l : list A) (x : A) (t : list A) :
  pop l = Some (x, t) -> l = t ++ [x].
Proof.
  revert x t. induction l as [|a l IH]; simpl; intros x t H; [discriminate|].
  destruct (pop l) as [[y t']|] eqn:E.
  - injection H as <- <-. rewrite (IH y t' eq_refl). reflexivity.
  - injection H as <- <-. apply pop_nil_iff in E. subst l. reflexivity.
Qed.

End Ops.
End PyListFacts.

Import F64Facts F64Width PyListFacts.

(** ** The handlers, branch by branch *)

Ltac run_cmd :=
  cbv [onclick onkey redraw save_results append_center append_other
       pop_center pop_other set_pts_center set_pts_other set_click_state
       print emit get ret raise bind handle with_points
       String.eqb Ascii.eqb Bool.eqb];
  cbn [result state output num_points other_name w1 pts_center pts_other
       click_state app].

Lemma len_app_pos {A : Type} (l : list A) (x : A) : (0 <? len (l ++ [x])) = true.
Proof.
  apply Z.ltb_lt. unfold len. rewrite length_app. simpl. lia.
Qed.

Lemma redraw_outcome (s : PointSelector) :
  redraw s
  = mkOut (inl tt) s
      [Draw (mkFrame (flat_map (pair_artists (w1 s)) (numbered_pairs s))
                     (length (pts_center s)) (num_points s))].
Proof. reflexivity. Qed.

Lemma onclick_left (s : PointSelector) (x y : float) :
  click_state s = 0 ->
  (x <? float_of_int (w1 s))%float = true ->
  let s' := with_points s (pts_center s ++ [(x, y)]) (pts_other s) 1 in
  onclick (InAxes x y) s
  = mkOut (inl tt) s'
      (Print (PickedLeft (length (pts_center s')) x y) :: output (redraw s')).
Proof.
  intros Hc Hx. run_cmd. rewrite Hc, Hx. reflexivity.
Qed.

Lemma onclick_right (s : PointSelector) (x y : float) :
  click_state s = 1 ->
  (float_of_int (w1 s) <=? x)%float = true ->
  let q := ((x - float_of_int (w1 s))%float, y) in
  let s' := with_points s (pts_center s) (pts_other s ++ [q]) 0 in
  onclick (InAxes x y) s
  = mkOut (inl tt) s'
      (Print (PickedRight (length (pts_other s')) (fst q) y)
         :: output (redraw s')
         ++ (if (num_points s <=? len (pts_center s'))
                && (num_points s <=? len (pts_other s'))
             then Print AllSelected :: ClosePlot :: output (save_results s')
             else [])).
Proof.
  intros Hc Hx. run_cmd. rewrite Hc, Hx. cbn [Z.eqb Pos.eqb andb fst].
  repeat match goal with
  | |- context [if ?c then _ else _] => destruct c eqn:?
  end; try reflexivity;
  match goal with
  | H : ?a = true, H' : ?b = false |- _ => change b with a in H'; congruence
  end.
Qed.

Lemma onclick_ignored (s : PointSelector) (x y : float) :
  (click_state s =? 0) && (x <? float_of_int (w1 s))%float = false ->
  (click_state s =? 1) && (float_of_int (w1 s) <=? x)%float = false ->
  onclick (InAxes x y) s = mkOut (inl tt) s [].
Proof.
  intros H0 H1. run_cmd. rewrite H0, H1. reflexivity.
Qed.

Lemma undo_left (s : PointSelector) (l : list Point) (p : Point) :
  click_state s = 1 ->
  pts_center s = l ++ [p] ->
  let s' := with_points s l (pts_other s) 0 in
  onkey "ctrl+z" s
  = mkOut (inl tt) s' (Print (UndoLeft p) :: output (redraw s')).
Proof.
  intros Hc Hl. run_cmd. rewrite Hc, Hl, len_app_pos.
  cbn [Z.eqb Pos.eqb andb]. rewrite ?Hl, pop_app. reflexivity.
Qed.

Lemma undo_pair (s : PointSelector) (l r : list Point) (p q : Point) :
  click_state s = 0 ->
  pts_center s = l ++ [p] ->
  pts_other s = r ++ [q] ->
  let s' := with_points s l r 0 in
  onkey "ctrl+z" s
  = mkOut (inl tt) s' (Print (UndoPair p q) :: output (redraw s')).
Proof.
  intros Hc Hl Hr. run_cmd.
  repeat first
    [ rewrite Hc | rewrite Hl | rewrite Hr | rewrite len_app_pos
    | rewrite pop_app
    | progress cbn [Z.eqb Pos.eqb andb pts_center pts_other click_state] ].
  reflexivity.
Qed.

Lemma undo_nothing (s : PointSelector) :
  click_state s = 0 ->
  pts_other s = [] ->
  onkey "ctrl+z" s
  = mkOut (inl tt) s (Print NothingToUndo :: output (redraw s)).
Proof.
  intros Hc Hr. destruct s as [n name w l r c]. cbn in Hc, Hr. subst c r.
  reflexivity.
Qed.

Lemma onkey_reset (s : PointSelector) :
  let s' := with_points s [] [] 0 in
  onkey "r" s = mkOut (inl tt) s' (Print ResetMsg :: output (redraw s')).
Proof. reflexivity. Qed.

Lemma onkey_other (s : PointSelector) (key : string) :
  key <> "ctrl+z"%string -> key <> "r"%string ->
  onkey key s = mkOut (inl tt) s [].
Proof.
  intros Hz Hr. unfold onkey.
  apply String.eqb_neq in Hz, Hr. rewrite Hz, Hr. reflexivity.
Qed.

(** ** Invariants of the reachable states *)

Lemma nonempty_last {A : Type} (l : list A) :
  l <> [] -> exists l' a, l = l' ++ [a].
Proof.
  intros H. destruct (exists_last H) as [l' [a E]]. exists l', a. exact E.
Qed.

Lemma length_pos_last {A : Type} (l : list A) (n : nat) :
  length l = S n -> exists l' a, l = l' ++ [a] /\ length l' = n.
Proof.
  intros H. destruct (nonempty_last l) as [l' [a E]].
  - intros E. rewrite E in H. discriminate.
  - exists l', a. split; [exact E|].
    rewrite E, length_app in H. cbn in H. lia.
Qed.

Ltac subst_lets := repeat match goal with x := _ |- _ => subst x end.

(** In a state that satisfies [paired] a callback goes one of the nine ways
    of [callback]. *)
Lemma handle_cases (s : PointSelector) (ev : event) :
  paired s -> callback s ev (handle ev s).
Proof.
  intros P. destruct ev as [[|x y]|key]; cbn [handle].
  - apply cb_off.
  - destruct P as [[Hc Hl]|[Hc Hl]].
    + destruct (x <? float_of_int (w1 s))%float eqn:Hx.
      * rewrite (onclick_left s x y Hc Hx). apply cb_left; assumption.
      * rewrite onclick_ignored; rewrite ?Hc, ?Hx; try reflexivity.
        apply cb_wrong_half. left. split; assumption.
    + destruct (float_of_int (w1 s) <=? x)%float eqn:Hx.
      * rewrite (onclick_right s x y Hc Hx). apply cb_right; assumption.
      * rewrite onclick_ignored; rewrite ?Hc, ?Hx; try reflexivity.
        apply cb_wrong_half. right. split; assumption.
  - destruct (String.eqb_spec key "ctrl+z") as [->|Hz].
    + destruct P as [[Hc Hl]|[Hc Hl]].
      * destruct (pts_other s) as [|q0 r0] eqn:Hr.
        -- rewrite (undo_nothing s Hc Hr). apply cb_undo_nothing; try assumption.
           destruct (pts_center s); [reflexivity | discriminate].
        -- cbn in Hl.
           destruct (length_pos_last _ _ Hl) as [l [p [El Ll]]].
           destruct (length_pos_last (q0 :: r0) (length r0) eq_refl)
             as [r [q [Er Lr]]].
           rewrite Er in Hr. rewrite (undo_pair s l r p q Hc El Hr).
           apply cb_undo_pair; try assumption. congruence.
      * destruct (length_pos_last _ _ Hl) as [l [p [El Ll]]].
        rewrite (undo_left s l p Hc El). apply cb_undo_left; assumption.
    + destruct (String.eqb_spec key "r") as [->|Hr].
      * rewrite onkey_reset. apply cb_reset.
      * rewrite (onkey_other s key Hz Hr). apply cb_other_key; assumption.
Qed.

Lemma paired_init (n : Z) (name : string) (w : Z) : paired (init n name w).
Proof. left. split; reflexivity. Qed.

(** From a state that satisfies [paired], every callback returns normally,
    keeps the configuration and lands in a state that satisfies it again. *)
Lemma handle_paired (s : PointSelector) (ev : event) :
  paired s ->
  paired (state (handle ev s))
  /\ result (handle ev s) = inl tt
  /\ w1 (state (handle ev s)) = w1 s
  /\ num_points (state (handle ev s)) = num_points s.
Proof.
  intros P.
  destruct (handle_cases s ev P); subst_lets; cbn [state result with_points];
    repeat split; try reflexivity; try exact P;
    unfold paired; cbn; rewrite ?length_app; cbn;
    destruct P as [[Pc Pl]|[Pc Pl]]; try congruence;
    first [ left; split; [reflexivity | lia]
          | right; split; [reflexivity | lia] ].
Qed.

Lemma reachable_paired (s : PointSelector) : reachable s -> paired s.
Proof.
  induction 1 as [n name w|s ev _ IH].
  - apply paired_init.
  - apply handle_paired, IH.
Qed.

Lemma run_snoc (events : list event) (ev : event) (s : PointSelector) :
  run (events ++ [ev]) s = state (handle ev (run events s)).
Proof. unfold run. rewrite fold_left_app. reflexivity. Qed.

Lemma reachable_run (events : list event) (s : PointSelector) :
  reachable s -> reachable (run events s).
Proof.
  revert s. induction events as [|ev events IH]; intros s R; [exact R|].
  apply IH. apply reach_step, R.
Qed.

(** ** The selector against the pairs in click order *)

Lemma represents_init (n : Z) (name : string) (w : Z) :
  represents (mkPairSet [] None) (init n name w).
Proof. repeat split. Qed.

Lemma represents_paired (ps : PairSet) (s : PointSelector) :
  represents ps s -> paired s.
Proof.
  intros (HL & HR & HC). unfold paired.
  rewrite HL, HR, HC, length_app, !length_map.
  destruct (pending ps); cbn; [right | left]; split; try reflexivity; lia.
Qed.

(** One callback of the selector is one transition of the [PairSet]. *)
Lemma handle_represents (ps : PairSet) (s : PointSelector) (ev : event) :
  represents ps s ->
  represents (pair_step (w1 s) ps ev) (state (handle ev s)).
Proof.
  intros R. pose proof (represents_paired ps s R) as P.
  destruct R as (HL & HR & HC). unfold represents.
  destruct ps as [C pend]; cbn [committed pending] in *.
  destruct (handle_cases s ev P)
    as [ | x y Hc Hx s' | x y Hc Hx q s' | x y Hw | l p Hc El Ll s'
       | l r p q Hc El Er Ll s' | Hc El Er | s' | key Hz Hr ];
    subst_lets; cbn [state pair_step with_points pts_center pts_other
                     click_state].
  - repeat split; assumption.
  - destruct pend as [pl|]; [congruence|].
    unfold register_click. cbn [pending committed]. rewrite Hx.
    cbn [pending committed]. rewrite HL, HR, app_nil_r. repeat split.
  - destruct pend as [pl|]; [|congruence].
    unfold register_click. cbn [pending committed]. rewrite Hx.
    cbn [pending committed]. rewrite HL, HR, !map_app, app_nil_r.
    repeat split.
  - unfold register_click. cbn [pending committed].
    destruct Hw as [[Hc Hx]|[Hc Hx]]; destruct pend as [pl|]; try congruence;
      rewrite Hx; repeat split; assumption.
  - destruct pend as [pl|]; [|congruence].
    rewrite El in HL. apply app_inj_tail in HL. destruct HL as [-> ->].
    unfold undo. cbn. rewrite app_nil_r. repeat split. exact HR.
  - destruct pend as [pl|]; [congruence|].
    rewrite app_nil_r in HL. rewrite El in HL. rewrite Er in HR.
    destruct (nonempty_last C) as [C' [[a b] EC]].
    { intros ->. destruct l; discriminate. }
    subst C. rewrite map_app in HL, HR. cbn in HL, HR.
    apply app_inj_tail in HL, HR. destruct HL as [-> ->], HR as [-> ->].
    unfold undo. cbn. rewrite removelast_last, app_nil_r. repeat split.
  - destruct pend as [pl|]; [congruence|].
    rewrite app_nil_r in HL. rewrite El in HL.
    destruct C; [|discriminate].
    repeat split; assumption.
  - repeat split.
  - apply String.eqb_neq in Hz, Hr. rewrite Hz, Hr. repeat split; assumption.
Qed.

Lemma run_represents (events : list event) (ps : PairSet) (s : PointSelector) :
  represents ps s ->
  represents (fold_left (pair_step (w1 s)) events ps) (run events s).
Proof.
  revert ps s. induction events as [|ev events IH]; intros ps s R; [exact R|].
  change (represents
            (fold_left (pair_step (w1 s)) events (pair_step (w1 s) ps ev))
            (run events (state (handle ev s)))).
  destruct (handle_paired s ev (represents_paired ps s R)) as (_ & _ & Hw & _).
  pose proof (IH _ _ (handle_represents ps s ev R)) as R'.
  rewrite Hw in R'. exact R'.
Qed.

(** ** What a callback writes *)

(** The record is written only by a click that appends a right point, and
    it holds the two lists as they are right after that click. *)
Lemma handle_dump (s : PointSelector) (ev : event) (d : JsonData) :
  paired s ->
  In (JsonDump d) (output (handle ev s)) ->
  let s' := state (handle ev s) in
  d = json_of s'
  /\ click_state s = 1 /\ click_state s' = 0
  /\ num_points s <= len (pts_center s')
  /\ num_points s <= len (pts_other s').
Proof.
  intros P.
  destruct (handle_cases s ev P)
    as [ | x y Hc Hx s' | x y Hc Hx q s' | x y Hw | l p Hc El Ll s'
       | l r p q Hc El Er Ll s' | Hc El Er | s' | key Hz Hr ];
    cbn [state output]; rewrite ?redraw_outcome; cbn [output app In];
    try (intros H; repeat (destruct H as [H|H]; try discriminate);
         destruct H).
  intros [H|[H|H]]; try discriminate.
  destruct (_ && _) eqn:E in H; [|destruct H].
  apply andb_true_iff in E. destruct E as [E1 E2].
  apply Z.leb_le in E1, E2.
  cbn in H. repeat (destruct H as [H|H]; try discriminate); [|destruct H].
  injection H as <-. subst s'. repeat split; assumption.
Qed.

(** ** The display loop *)

Lemma show_result (events : list event) (s : PointSelector) :
  result (show events s) = inl tt.
Proof.
  destruct events as [|ev rest]; cbn [show]; [reflexivity|].
  destruct (closes (output (handle ev s))); reflexivity.
Qed.

(** Once a callback has closed the figure the loop is over: whatever the
    operator does next is not delivered. *)
Lemma show_closed_app (events rest : list event) (s : PointSelector) :
  closes (output (show events s)) = true ->
  show (events ++ rest) s = show events s.
Proof.
  revert s. induction events as [|ev events IH]; intros s H.
  - discriminate.
  - cbn [show app] in *.
    destruct (closes (output (handle ev s))) eqn:E; [reflexivity|].
    cbn [output] in H. unfold closes in H, E. rewrite existsb_app, E in H.
    rewrite (IH _ H). reflexivity.
Qed.

Lemma show_reachable (events : list event) (s : PointSelector) :
  reachable s -> reachable (state (show events s)).
Proof.
  revert s. induction events as [|ev events IH]; intros s R; [exact R|].
  cbn [show]. destruct (closes (output (handle ev s))); cbn [state].
  - apply reach_step, R.
  - apply IH, reach_step, R.
Qed.

(** While the figure stays open, fewer than [num_points] pairs are
    committed (for a target of at least one pair). *)
Lemma handle_open_count (s : PointSelector) (ev : event) :
  paired s ->
  1 <= num_points s ->
  committed_count s < num_points s ->
  closes (output (handle ev s)) = false ->
  committed_count (state (handle ev s)) < num_points s.
Proof.
  intros P N C.
  unfold committed_count, len in *.
  destruct (handle_cases s ev P)
    as [ | x y Hc Hx s' | x y Hc Hx q s' | x y Hw | l p Hc El Ll s'
       | l r p q Hc El Er Ll s' | Hc El Er | s' | key Hz Hr ];
    subst_lets; cbn [state output with_points pts_center pts_other];
    intros O; try assumption;
    destruct P as [[Pc Pl]|[Pc Pl]]; try congruence;
    try (rewrite ?El, ?Er, ?length_app in *; cbn [length] in *; lia).
  unfold closes in O. cbn [existsb is_close orb] in O.
  rewrite existsb_app in O. apply orb_false_iff in O. destruct O as [_ O].
  destruct (_ && _) eqn:E in O; [discriminate|].
  apply andb_false_iff in E. unfold len in E. cbn in E.
  rewrite length_app in *. cbn [length] in *.
  destruct E as [E|E]; apply Z.leb_gt in E; lia.
Qed.

Lemma show_open_count (events : list event) (s : PointSelector) :
  paired s ->
  1 <= num_points s ->
  committed_count s < num_points s ->
  closes (output (show events s)) = false ->
  committed_count (state (show events s)) < num_points s.
Proof.
  revert s. induction events as [|ev events IH]; intros s P N C O.
  - exact C.
  - cbn [show] in *.
    destruct (handle_paired s ev P) as (P' & _ & _ & Hn).
    destruct (closes (output (handle ev s))) eqn:E; cbn [state output] in *.
    + congruence.
    + unfold closes in O, E. rewrite existsb_app, E in O. cbn [orb] in O.
      rewrite <- Hn. apply IH; rewrite ?Hn; try assumption.
      apply handle_open_count; assumption.
Qed.

(** ** Zipping two lists *)

Lemma zip_firstn_min {A B : Type} (l : list A) (r : list B) :
  let m := Nat.min (length l) (length r) in
  zip l r = zip (firstn m l) (firstn m r).
Proof.
  unfold zip. cbn zeta. rewrite <- combine_firstn, <- length_combine.
  symmetry. apply firstn_all.
Qed.

Lemma zip_dangling {A B : Type} (l : list A) (a : A) (r : list B) :
  length l = length r -> zip (l ++ [a]) r = zip l r.
Proof.
  intros H. rewrite (zip_firstn_min (l ++ [a]) r), (zip_firstn_min l r).
  cbn zeta. rewrite length_app. cbn [length].
  replace (Nat.min (length l + 1) (length r)) with (length l) by lia.
  replace (Nat.min (length l) (length r)) with (length l) by lia.
  rewrite firstn_app, Nat.sub_diag, firstn_all. cbn [firstn].
  rewrite app_nil_r. reflexivity.
Qed.

Lemma length_pair_artists (w : Z) (item : nat * (Point * Point)) :
  length (pair_artists w item) = 5%nat.
Proof. destruct item as [i [[xL yL] ptR]]. reflexivity. Qed.

Lemma length_flat_map_artists (w : Z) (items : list (nat * (Point * Point))) :
  length (flat_map (pair_artists w) items) = (5 * length items)%nat.
Proof.
  induction items as [|it items IH]; [reflexivity|].
  cbn [flat_map]. rewrite length_app, length_pair_artists, IH. cbn [length]. lia.
Qed.

Lemma length_enumerate {A : Type} (start : nat) (l : list A) :
  length (enumerate start l) = length l.
Proof.
  unfold enumerate. rewrite length_combine, length_seq. lia.
Qed.

(** ** The properties of the selector *)

(** C1.  After every sequence of callbacks (clicks, undo, reset, any other
    key) run from the freshly constructed selector, the left list is as
    long as the right one or exactly one longer, the click state is 0
    (awaiting left) or 1 (awaiting right), and it is 1 exactly when the
    left list is the longer one. *)
Theorem lengths_and_cursor_after_every_operation
  (n : Z) (name : string) (w : Z) (events : list event) :
  let s := run events (init n name w) in
  (len (pts_center s) - len (pts_other s) = 0
   \/ len (pts_center s) - len (pts_other s) = 1)
  /\ (click_state s = 0 \/ click_state s = 1)
  /\ (click_state s = 1 <-> len (pts_center s) > len (pts_other s)).
Proof.
  cbn zeta.
  pose proof (reachable_paired _ (reachable_run events _ (reach_init n name w)))
    as P.
  unfold paired in P. unfold len.
  destruct P as [[Hc Hl]|[Hc Hl]]; rewrite Hc, Hl; repeat split;
    try lia; auto.
Qed.

Ltac snoc_nil :=
  match goal with
  | H : ?l ++ [_] = [] |- _ => destruct l; discriminate H
  | |- ?l ++ [_] <> [] => let E := fresh in intros E; destruct l; discriminate E
  end.

(** Undo in a reachable state, read off the three branches of [onkey]. *)
Lemma undo_reachable (s : PointSelector) :
  paired s ->
  let o := onkey "ctrl+z" s in
  result o = inl tt
  /\ (click_state s = 1 ->
      pts_center s <> []
      /\ triple (state o) = (removelast (pts_center s), pts_other s, 0)
      /\ exists p, output o = Print (UndoLeft p) :: output (redraw (state o)))
  /\ (click_state s = 0 -> pts_other s <> [] ->
      pts_center s <> []
      /\ triple (state o)
         = (removelast (pts_center s), removelast (pts_other s), 0)
      /\ exists p q,
           output o = Print (UndoPair p q) :: output (redraw (state o)))
  /\ (click_state s = 0 -> pts_other s = [] ->
      pts_center s = []
      /\ state o = s
      /\ output o = Print NothingToUndo :: output (redraw s)).
Proof.
  intros P. cbn zeta. destruct P as [[Hc Hl]|[Hc Hl]].
  - destruct (length (pts_other s)) as [|k] eqn:Lr.
    + apply length_zero_iff_nil in Lr, Hl.
      rewrite (undo_nothing s Hc Lr). cbn [result state output].
      repeat split; congruence.
    + destruct (length_pos_last _ _ Hl) as [l [p [El Ll]]].
      destruct (length_pos_last _ _ Lr) as [r [q [Er Lr']]].
      rewrite (undo_pair s l r p q Hc El Er).
      cbn [result state output]. rewrite El, Er.
      repeat split; try congruence; try snoc_nil.
      * unfold triple. cbn. rewrite !removelast_last. reflexivity.
      * exists p, q. reflexivity.
  - destruct (length_pos_last _ _ Hl) as [l [p [El Ll]]].
    rewrite (undo_left s l p Hc El). cbn [result state output]. rewrite El.
    repeat split; try congruence; try snoc_nil.
    + unfold triple. cbn. rewrite removelast_last. reflexivity.
    + exists p. reflexivity.
Qed.

(** C4.  Undo ([ctrl+z]) in a reachable state returns normally and goes by
    the click state: awaiting right, it removes the last left point only and
    the state becomes awaiting left; awaiting left with at least one
    committed pair, it removes the last point of both lists and stays
    awaiting left; awaiting left with both lists empty, it changes nothing
    and prints that there is nothing to undo. *)
Theorem undo_by_cursor_case (s : PointSelector) :
  reachable s ->
  let o := onkey "ctrl+z" s in
  result o = inl tt
  /\ (click_state s = 1 ->
      pts_center s <> []
      /\ triple (state o) = (removelast (pts_center s), pts_other s, 0))
  /\ (click_state s = 0 -> 0 < committed_count s ->
      pts_center s <> [] /\ pts_other s <> []
      /\ triple (state o)
         = (removelast (pts_center s), removelast (pts_other s), 0))
  /\ (click_state s = 0 -> pts_center s = [] -> pts_other s = [] ->
      state o = s /\ In (Print NothingToUndo) (output o)).
Proof.
  intros R. cbn zeta.
  destruct (undo_reachable s (reachable_paired s R)) as (H0 & H1 & H2 & H3).
  split; [exact H0|]. split; [|split].
  - intros Hc. destruct (H1 Hc) as (A & B & _). split; assumption.
  - intros Hc Hn.
    assert (Hr : pts_other s <> []).
    { intros E. unfold committed_count, len in Hn. rewrite E in Hn.
      cbn [length] in Hn. lia. }
    destruct (H2 Hc Hr) as (A & B & _). repeat split; assumption.
  - intros Hc _ Hr. destruct (H3 Hc Hr) as (_ & A & B).
    split; [exact A|]. rewrite B. left. reflexivity.
Qed.

Lemma undo_by_cursor_case_witness :
  let s := run [click 50 60] (demo 6) in
  let o := onkey "ctrl+z" s in
  result o = inl tt
  /\ (click_state s = 1 ->
      pts_center s <> []
      /\ triple (state o) = (removelast (pts_center s), pts_other s, 0))
  /\ (click_state s = 0 -> 0 < committed_count s ->
      pts_center s <> [] /\ pts_other s <> []
      /\ triple (state o)
         = (removelast (pts_center s), removelast (pts_other s), 0))
  /\ (click_state s = 0 -> pts_center s = [] -> pts_other s = [] ->
      state o = s /\ In (Print NothingToUndo) (output o)).
Proof.
  apply (undo_by_cursor_case (run [click 50 60] (demo 6))).
  apply reachable_run. apply reach_init.
Defined.

Lemma right_half_awaiting_left (s : PointSelector) (x y : float) :
  click_state s = 0 ->
  (float_of_int (w1 s) <=? x)%float = true ->
  onclick (InAxes x y) s = mkOut (inl tt) s [].
Proof.
  intros Hc Hx. apply onclick_ignored; rewrite Hc.
  - rewrite (leb_ltb_false _ _ Hx). reflexivity.
  - reflexivity.
Qed.

Lemma left_half_awaiting_right (s : PointSelector) (x y : float) :
  click_state s = 1 ->
  (x <? float_of_int (w1 s))%float = true ->
  onclick (InAxes x y) s = mkOut (inl tt) s [].
Proof.
  intros Hc Hx. apply onclick_ignored; rewrite Hc.
  - reflexivity.
  - rewrite (ltb_leb_false _ _ Hx). reflexivity.
Qed.

(** C5.  A click on the half that does not match the click state (left half
    while awaiting right, right half while awaiting left) returns normally,
    leaves the whole object as it was and emits nothing. *)
Theorem wrong_half_click_is_ignored (s : PointSelector) (x y : float) :
  (click_state s = 1 /\ (x <? float_of_int (w1 s))%float = true)
  \/ (click_state s = 0 /\ (float_of_int (w1 s) <=? x)%float = true) ->
  onclick (InAxes x y) s = mkOut (inl tt) s [].
Proof.
  intros [[Hc Hx]|[Hc Hx]].
  - apply left_half_awaiting_right; assumption.
  - apply right_half_awaiting_left; assumption.
Qed.

Lemma wrong_half_click_is_ignored_witness :
  onclick (InAxes (coord 10) (coord 10)) (run [click 50 60] (demo 6))
  = mkOut (inl tt) (run [click 50 60] (demo 6)) [].
Proof.
  apply wrong_half_click_is_ignored. left. split; reflexivity.
Defined.

Lemma onclick_not_left (s : PointSelector) (x y : float) :
  (x <? float_of_int (w1 s))%float = false ->
  pts_center (state (onclick (InAxes x y) s)) = pts_center s.
Proof.
  intros Hx.
  destruct ((click_state s =? 1) && (float_of_int (w1 s) <=? x)%float) eqn:E.
  - apply andb_true_iff in E. destruct E as [Hc Hr]. apply Z.eqb_eq in Hc.
    rewrite (onclick_right s x y Hc Hr). reflexivity.
  - rewrite onclick_ignored; rewrite ?Hx, ?andb_false_r; auto.
Qed.

(** C6.  A click whose [x] is exactly the width of the left image counts as
    a click on the right image: awaiting right, it appends [(0, y)] to the
    right list (and the state becomes awaiting left); awaiting left, it is
    ignored; in no state does it add to the left list.  The width is an
    image width: a non-negative integer below 2^53. *)
Theorem boundary_click_is_right_half (s : PointSelector) (y : float) :
  0 <= w1 s < 2 ^ 53 ->
  let x := float_of_int (w1 s) in
  (click_state s = 1 ->
   state (onclick (InAxes x y) s)
   = with_points s (pts_center s) (pts_other s ++ [(zero, y)]) 0)
  /\ (click_state s = 0 -> onclick (InAxes x y) s = mkOut (inl tt) s [])
  /\ pts_center (state (onclick (InAxes x y) s)) = pts_center s.
Proof.
  intros Hw. pose proof (float_of_int_finite _ Hw) as Hf.
  cbn zeta. split; [|split].
  - intros Hc. rewrite (onclick_right s _ y Hc (leb_diag _ Hf)).
    cbn [state]. rewrite (sub_diag _ Hf). reflexivity.
  - intros Hc. apply right_half_awaiting_left; [exact Hc|].
    apply leb_diag, Hf.
  - apply onclick_not_left, ltb_diag.
Qed.

Lemma boundary_click_is_right_half_witness :
  let s := awaiting_right_demo in
  let x := float_of_int (w1 s) in
  (click_state s = 1 ->
   state (onclick (InAxes x (coord 70)) s)
   = with_points s (pts_center s) (pts_other s ++ [(zero, coord 70)]) 0)
  /\ (click_state s = 0 ->
      onclick (InAxes x (coord 70)) s = mkOut (inl tt) s [])
  /\ pts_center (state (onclick (InAxes x (coord 70)) s)) = pts_center s.
Proof.
  apply (boundary_click_is_right_half awaiting_right_demo (coord 70)).
  change (0 <= 400 < 2 ^ 53). lia.
Defined.

(** C7.  Reset (the [r] key) returns normally and, whatever the state
    before, leaves both lists empty and the click state 0 (awaiting left). *)
Theorem reset_yields_empty (s : PointSelector) :
  result (onkey "r" s) = inl tt
  /\ triple (state (onkey "r" s)) = ([], [], 0).
Proof. split; reflexivity. Qed.

(** A dangling left point is the last element of [pts_center]. *)
Lemma paired_pending (s : PointSelector) :
  paired s -> click_state s = 1 ->
  exists l p, pts_center s = l ++ [p] /\ length l = length (pts_other s).
Proof.
  intros [[Hc _]|[_ Hl]] H1; [congruence|].
  apply length_pos_last, Hl.
Qed.

(** C2, as stated, fails: from the reachable, non-empty state with a pending
    left point, a click on the right image followed at once by undo does not
    give the state back; the undo removes the whole pair. *)
Lemma undo_after_right_click_drops_pair :
  reachable awaiting_right_demo
  /\ triple awaiting_right_demo <> ([], [], 0)
  /\ triple (state (onkey "ctrl+z"
                      (state (onclick (InAxes (coord 430) (coord 70))
                                      awaiting_right_demo))))
     <> triple awaiting_right_demo.
Proof.
  split; [|split].
  - apply reachable_run, reach_init.
  - intros H. vm_compute in H. discriminate H.
  - intros H. vm_compute in H. discriminate H.
Qed.

(** C2, amended.  In a reachable state, undo right after a click that
    appended a left point gives back exactly the triple from before the
    click, the initial empty state included; undo right after a click that
    appended a right point removes that point together with the left point
    it completed, so the result is the earlier triple without its pending
    left point and with click state 0.  Both undos return normally. *)
Theorem undo_after_accepted_click (s : PointSelector) (x y : float) :
  reachable s ->
  let s1 := state (onclick (InAxes x y) s) in
  let o := onkey "ctrl+z" s1 in
  (click_state s = 0 -> (x <? float_of_int (w1 s))%float = true ->
   result o = inl tt /\ triple (state o) = triple s)
  /\ (click_state s = 1 -> (float_of_int (w1 s) <=? x)%float = true ->
      result o = inl tt
      /\ triple (state o) = (removelast (pts_center s), pts_other s, 0)).
Proof.
  intros R. cbn zeta. pose proof (reachable_paired s R) as P. split.
  - intros Hc Hx. rewrite (onclick_left s x y Hc Hx). cbn [state].
    rewrite (undo_left
               (with_points s (pts_center s ++ [(x, y)]) (pts_other s) 1)
               (pts_center s) (x, y) eq_refl eq_refl).
    cbn [result state]. split; [reflexivity|].
    unfold triple. cbn. rewrite Hc. reflexivity.
  - intros Hc Hx. rewrite (onclick_right s x y Hc Hx). cbn [state].
    destruct (paired_pending s P Hc) as [l [p [El Ll]]].
    rewrite (undo_pair
               (with_points s (pts_center s)
                  (pts_other s ++ [((x - float_of_int (w1 s))%float, y)]) 0)
               l (pts_other s) p _ eq_refl El eq_refl).
    cbn [result state]. split; [reflexivity|].
    unfold triple. cbn. rewrite El, removelast_last. reflexivity.
Qed.

Lemma undo_after_accepted_click_witness :
  let s := demo 6 in
  let s1 := state (onclick (InAxes (coord 50) (coord 60)) s) in
  let o := onkey "ctrl+z" s1 in
  (click_state s = 0 ->
   (coord 50 <? float_of_int (w1 s))%float = true ->
   result o = inl tt /\ triple (state o) = triple s)
  /\ (click_state s = 1 ->
      (float_of_int (w1 s) <=? coord 50)%float = true ->
      result o = inl tt
      /\ triple (state o) = (removelast (pts_center s), pts_other s, 0)).
Proof.
  apply (undo_after_accepted_click (demo 6) (coord 50) (coord 60)).
  apply reach_init.
Defined.

(** C3, as stated, fails.  With the target of one pair reached, [onclick]
    called once more with a click on the left image appends it: the handler
    has no test on the count.  And with a target of zero the count equals
    the target from the start, yet the display loop delivers the first click
    and the selector records it. *)
Lemma click_after_target_is_recorded :
  (committed_count target_reached_demo = num_points target_reached_demo
   /\ triple (state (onclick (InAxes (coord 3) (coord 3)) target_reached_demo))
      <> triple target_reached_demo)
  /\ (committed_count (demo 0) = num_points (demo 0)
      /\ triple (state (show [click 50 60] (demo 0))) <> triple (demo 0)).
Proof.
  repeat split; try reflexivity; intros H; vm_compute in H; discriminate H.
Qed.

(** C8.  Whenever a callback writes the record, run after any sequence of
    earlier callbacks from the freshly constructed selector, no left point
    is pending, the two arrays of the record are the left points and the
    right points of the committed pairs in click order (entry [i] of each
    array belongs to pair [i+1]), they have the same length, and at least
    [num_points] pairs are committed. *)
Theorem persisted_record_is_committed_pairs
  (n : Z) (name : string) (w : Z) (events : list event) (ev : event)
  (d : JsonData) :
  In (JsonDump d) (output (handle ev (run events (init n name w)))) ->
  let ps := pair_run w (events ++ [ev]) in
  pending ps = None
  /\ points_center d = map as_float_list (map fst (committed ps))
  /\ points_other d = map as_float_list (map snd (committed ps))
  /\ length (points_center d) = length (points_other d)
  /\ (forall i l r,
        nth_error (committed ps) i = Some (l, r) ->
        nth_error (points_center d) i = Some (as_float_list l)
        /\ nth_error (points_other d) i = Some (as_float_list r))
  /\ n <= len (committed ps).
Proof.
  intros H. cbn zeta.
  pose proof (reachable_paired _ (reachable_run events _ (reach_init n name w)))
    as P.
  destruct (handle_dump _ ev d P H) as (Hd & _ & Hc & Hn & _).
  rewrite <- run_snoc in Hd, Hc, Hn.
  pose proof (run_represents (events ++ [ev]) _ _ (represents_init n name w))
    as (HL & HR & HC).
  cbn [w1 init] in HL, HR, HC. fold (pair_run w (events ++ [ev])) in HL, HR, HC.
  destruct (handle_paired _ ev P) as (_ & _ & _ & Hnum).
  destruct (pending (pair_run w (events ++ [ev]))) as [pl|] eqn:Ep.
  { rewrite Hc in HC. discriminate HC. }
  rewrite app_nil_r in HL.
  assert (Ec : points_center d
               = map as_float_list
                   (map fst (committed (pair_run w (events ++ [ev]))))).
  { rewrite Hd. cbn [json_of points_center]. rewrite HL. reflexivity. }
  assert (Eo : points_other d
               = map as_float_list
                   (map snd (committed (pair_run w (events ++ [ev]))))).
  { rewrite Hd. cbn [json_of points_other]. rewrite HR. reflexivity. }
  split; [reflexivity|]. split; [exact Ec|]. split; [exact Eo|].
  split; [|split].
  - rewrite Ec, Eo, !length_map. reflexivity.
  - intros i l r Hi. rewrite Ec, Eo. split.
    + apply map_nth_error.
      apply (map_nth_error fst) in Hi. exact Hi.
    + apply map_nth_error.
      apply (map_nth_error snd) in Hi. exact Hi.
  - rewrite run_snoc in Hn. rewrite <- run_snoc in Hn.
    unfold len in *. rewrite HL, length_map in Hn.
    cbn [num_points] in *.
    replace (num_points (run events (init n name w))) with n in Hn; [exact Hn|].
    clear. induction events as [|e events IH] using rev_ind; [reflexivity|].
    rewrite run_snoc.
    destruct (handle_paired _ e
                (reachable_paired _
                   (reachable_run events _ (reach_init n name w))))
      as (_ & _ & _ & Hnum).
    rewrite Hnum. exact IH.
Qed.

Lemma persisted_record_is_committed_pairs_witness :
  let d := mkJson "img4" [[coord 50; coord 60]] [[coord 30; coord 70]] in
  let ps := pair_run 400 ([click 50 60] ++ [click 430 70]) in
  pending ps = None
  /\ points_center d = map as_float_list (map fst (committed ps))
  /\ points_other d = map as_float_list (map snd (committed ps))
  /\ length (points_center d) = length (points_other d)
  /\ (forall i l r,
        nth_error (committed ps) i = Some (l, r) ->
        nth_error (points_center d) i = Some (as_float_list l)
        /\ nth_error (points_other d) i = Some (as_float_list r))
  /\ 1 <= len (committed ps).
Proof.
  apply (persisted_record_is_committed_pairs
           1 "img4" 400 [click 50 60] (click 430 70)
           (mkJson "img4" [[coord 50; coord 60]] [[coord 30; coord 70]])).
  vm_compute. do 4 right. left. reflexivity.
Defined.

Lemma get_points_outcome (events : list event) (s : PointSelector) :
  get_points events s
  = mkOut (inl (np_array_float32 (pts_center (state (show events s))),
                np_array_float32 (pts_other (state (show events s)))))
          (state (show events s))
          (output (show events s) ++ []).
Proof.
  unfold get_points, bind, get, ret.
  pose proof (show_result events s) as Hr.
  destruct (show events s) as [r s' t]. cbn in Hr. subst r. reflexivity.
Qed.

(** ** Further properties of the callbacks *)

Lemma len_pos_iff {A : Type} (l : list A) : (0 <? len l) = true <-> l <> [].
Proof.
  unfold len. destruct l as [|a l]; cbn [length].
  - split; [discriminate | congruence].
  - split; [discriminate | intros _; apply Z.ltb_lt; lia].
Qed.

Lemma len_nil_false {A : Type} : (0 <? len (@nil A)) = false.
Proof. reflexivity. Qed.

(** Undo with [click_state] 0 and a right point to remove. *)
Lemma undo_state0 (s : PointSelector) (r : list Point) (q : Point) :
  click_state s = 0 ->
  pts_other s = r ++ [q] ->
  onkey "ctrl+z" s
  = match pop (pts_center s) with
    | Some (p, l) =>
        let s' := with_points s l r 0 in
        mkOut (inl tt) s' (Print (UndoPair p q) :: output (redraw s'))
    | None => mkOut (inr IndexError) (with_points s (pts_center s) r 0) []
    end.
Proof.
  intros Hc Hr. run_cmd.
  repeat first
    [ rewrite Hc | rewrite Hr | rewrite len_app_pos | rewrite pop_app
    | progress cbn [Z.eqb Pos.eqb andb pts_center pts_other click_state] ].
  destruct (pop (pts_center s)) as [[p l]|]; reflexivity.
Qed.

(** Undo when neither branch that removes a point applies. *)
Lemma undo_else (s : PointSelector) :
  (click_state s =? 1) && (0 <? len (pts_center s)) = false ->
  (click_state s =? 0) && (0 <? len (pts_other s)) = false ->
  onkey "ctrl+z" s
  = mkOut (inl tt) s (Print NothingToUndo :: output (redraw s)).
Proof.
  intros H1 H0. destruct s as [n name w l r c].
  cbn [click_state pts_center pts_other] in H1, H0.
  run_cmd. rewrite H1, H0. reflexivity.
Qed.

(** X1.  Undo raises (an [IndexError] from popping the empty left list)
    exactly in a state with click state 0, a non-empty right list and an
    empty left list; the right list has then already lost its last point.
    No sequence of callbacks reaches such a state. *)
Theorem undo_raises_exactly_when (s : PointSelector) :
  let o := onkey "ctrl+z" s in
  (result o = inr IndexError <->
   click_state s = 0 /\ pts_other s <> [] /\ pts_center s = [])
  /\ (result o = inr IndexError ->
      pts_other (state o) = removelast (pts_other s)
      /\ pts_center (state o) = [] /\ output o = [])
  /\ (reachable s -> result o = inl tt).
Proof.
  cbn zeta.
  assert (Hreach : reachable s -> result (onkey "ctrl+z" s) = inl tt).
  { intros R. apply (handle_paired s (KeyPress "ctrl+z")),
      reachable_paired, R. }
  destruct ((click_state s =? 1) && (0 <? len (pts_center s))) eqn:E1.
  - apply andb_true_iff in E1. destruct E1 as [Hc Hl].
    apply Z.eqb_eq in Hc. apply len_pos_iff in Hl.
    destruct (nonempty_last _ Hl) as [l [p El]].
    rewrite (undo_left s l p Hc El). cbn [result state output].
    repeat split; try discriminate; try (intros; congruence).
    intros (H & _). congruence.
  - destruct ((click_state s =? 0) && (0 <? len (pts_other s))) eqn:E0.
    + apply andb_true_iff in E0. destruct E0 as [Hc Hr].
      apply Z.eqb_eq in Hc. apply len_pos_iff in Hr.
      destruct (nonempty_last _ Hr) as [r [q Er]].
      rewrite (undo_state0 s r q Hc Er) in *.
      destruct (pop (pts_center s)) as [[p l]|] eqn:Ep.
      * apply pop_some in Ep. cbn [result state output].
        repeat split; try discriminate; try (intros; congruence).
        intros (_ & _ & H). rewrite H in Ep. destruct l; discriminate Ep.
      * apply pop_nil_iff in Ep. cbn [result state output with_points
                                       pts_center pts_other].
        rewrite Er, removelast_last.
        repeat split; try assumption; try reflexivity; snoc_nil.
    + rewrite (undo_else s E1 E0). cbn [result state output].
      repeat split; try discriminate; try (intros; congruence).
      intros (Hc & Hr & _). rewrite Hc in E0. cbn [Z.eqb andb] in E0.
      apply len_pos_iff in Hr. congruence.
Qed.

(** X2.  A pair and one undo cancel: from any state with click state 0, an
    accepted click on the left image, an accepted click on the right image
    and then undo give back the very object, and the undo returns
    normally. *)
Theorem pair_then_undo_restores (s : PointSelector) (x1 y1 x2 y2 : float) :
  click_state s = 0 ->
  (x1 <? float_of_int (w1 s))%float = true ->
  (float_of_int (w1 s) <=? x2)%float = true ->
  let s1 := state (onclick (InAxes x1 y1) s) in
  let s2 := state (onclick (InAxes x2 y2) s1) in
  onkey "ctrl+z" s2
  = mkOut (inl tt) s
      (Print (UndoPair (x1, y1) ((x2 - float_of_int (w1 s))%float, y2))
         :: output (redraw s)).
Proof.
  intros Hc H1 H2. cbn zeta.
  destruct s as [n name w l r c]. cbn [click_state w1] in Hc, H1, H2 |- *.
  subst c.
  rewrite (onclick_left (mkSelector n name w l r 0) x1 y1 eq_refl H1).
  cbn [state]. unfold with_points.
  cbn [num_points other_name w1 pts_center pts_other].
  rewrite (onclick_right (mkSelector n name w (l ++ [(x1, y1)]) r 1)
             x2 y2 eq_refl H2).
  cbn [state]. unfold with_points.
  cbn [num_points other_name w1 pts_center pts_other].
  rewrite (undo_pair
             (mkSelector n name w (l ++ [(x1, y1)])
                (r ++ [((x2 - float_of_int w)%float, y2)]) 0)
             l r (x1, y1) ((x2 - float_of_int w)%float, y2)
             eq_refl eq_refl eq_refl).
  reflexivity.
Qed.

Lemma pair_then_undo_restores_witness :
  onkey "ctrl+z"
    (state (onclick (InAxes (coord 430) (coord 70))
              (state (onclick (InAxes (coord 50) (coord 60)) (demo 6)))))
  = mkOut (inl tt) (demo 6)
      (Print (UndoPair (coord 50, coord 60)
                ((coord 430 - float_of_int (w1 (demo 6)))%float, coord 70))
         :: output (redraw (demo 6))).
Proof.
  apply (pair_then_undo_restores (demo 6)); reflexivity.
Defined.

Lemma draws_app (a b : list effect) : draws (a ++ b) = draws a ++ draws b.
Proof. apply flat_map_app. Qed.

Lemma dumps_app (a b : list effect) : dumps (a ++ b) = dumps a ++ dumps b.
Proof. apply flat_map_app. Qed.

Lemma save_results_output (s : PointSelector) :
  output (save_results s)
  = [JsonDump (json_of s); Print SavedJson;
     Savefig (artists (frame_of s)); Print SavedImage;
     Print (Table (numbered_pairs s))].
Proof. reflexivity. Qed.

Lemma redraw_output (s : PointSelector) : output (redraw s) = [Draw (frame_of s)].
Proof. reflexivity. Qed.

(** The trace of a click that appends a right point, by whether the target
    is reached. *)
Lemma right_click_output (s : PointSelector) (x y : float) :
  click_state s = 1 ->
  (float_of_int (w1 s) <=? x)%float = true ->
  let o := onclick (InAxes x y) s in
  let s' := state o in
  let q := ((x - float_of_int (w1 s))%float, y) in
  s' = with_points s (pts_center s) (pts_other s ++ [q]) 0
  /\ ((closes (output o) = true
       /\ num_points s <= len (pts_center s')
       /\ num_points s <= len (pts_other s')
       /\ output o
          = [Print (PickedRight (length (pts_other s')) (fst q) y);
             Draw (frame_of s'); Print AllSelected; ClosePlot]
            ++ output (save_results s'))
      \/ (closes (output o) = false
          /\ (len (pts_center s') < num_points s
              \/ len (pts_other s') < num_points s)
          /\ output o
             = [Print (PickedRight (length (pts_other s')) (fst q) y);
                Draw (frame_of s')])).
Proof.
  intros Hc Hx. cbn zeta. rewrite (onclick_right s x y Hc Hx).
  cbn [state output]. split; [reflexivity|].
  rewrite redraw_output.
  destruct (_ && _) eqn:E.
  - left. apply andb_true_iff in E. destruct E as [E1 E2].
    apply Z.leb_le in E1, E2.
    split; [reflexivity|]. split; [exact E1|]. split; [exact E2|].
    reflexivity.
  - right. apply andb_false_iff in E.
    split; [reflexivity|]. split; [|reflexivity].
    destruct E as [E|E]; apply Z.leb_gt in E; [left | right]; exact E.
Qed.

(** X3.  In a reachable state a callback either is ignored, leaving the
    object as it was and emitting nothing, or draws exactly one frame, and
    that frame shows the object as the callback leaves it. *)
Theorem callback_redraws_once (s : PointSelector) (ev : event) :
  reachable s ->
  let o := handle ev s in
  o = mkOut (inl tt) s []
  \/ draws (output o) = [frame_of (state o)].
Proof.
  intros R. cbn zeta. pose proof (reachable_paired s R) as P.
  destruct (handle_cases s ev P)
    as [ | x y Hc Hx s' | x y Hc Hx q s' | x y Hw | l p Hc El Ll s'
       | l r p q Hc El Er Ll s' | Hc El Er | s' | key Hz Hr ];
    try (left; reflexivity); right; cbn [state output];
    rewrite ?redraw_output; try reflexivity.
  destruct (_ && _); reflexivity.
Qed.

Lemma callback_redraws_once_witness :
  handle (click 430 70) awaiting_right_demo
  = mkOut (inl tt) awaiting_right_demo []
  \/ draws (output (handle (click 430 70) awaiting_right_demo))
     = [frame_of (state (handle (click 430 70) awaiting_right_demo))].
Proof.
  apply (callback_redraws_once awaiting_right_demo (click 430 70)).
  apply reachable_run, reach_init.
Defined.

(** X4.  The title of a frame counts the left points.  In a reachable state
    awaiting a left click it is the number of pairs drawn; awaiting a right
    click it is one more than the number of pairs drawn, the pending left
    point being counted though not drawn. *)
Theorem title_counts_pending_point (s : PointSelector) :
  reachable s ->
  exists fr : Frame,
    output (redraw s) = [Draw fr]
    /\ title_total fr = num_points s
    /\ title_selected fr = length (pts_center s)
    /\ (click_state s = 0 ->
        length (artists fr) = (5 * title_selected fr)%nat)
    /\ (click_state s = 1 ->
        S (length (pts_other s)) = title_selected fr
        /\ length (artists fr) = (5 * length (pts_other s))%nat).
Proof.
  intros R. exists (frame_of s). split; [reflexivity|].
  split; [reflexivity|]. split; [reflexivity|].
  cbn [frame_of artists title_selected].
  rewrite length_flat_map_artists. unfold numbered_pairs.
  rewrite length_enumerate. unfold zip. rewrite length_combine.
  destruct (reachable_paired s R) as [[Hc Hl]|[Hc Hl]]; split; intros H;
    try (rewrite Hc in H; discriminate H); rewrite Hl; try split; lia.
Qed.

Lemma title_counts_pending_point_witness :
  exists fr : Frame,
    output (redraw dangling_demo) = [Draw fr]
    /\ title_selected fr = 2%nat
    /\ length (artists fr) = 5%nat.
Proof.
  destruct (title_counts_pending_point dangling_demo)
    as (fr & H1 & _ & H3 & _ & H5).
  { apply reachable_run, reach_init. }
  exists fr. split; [exact H1|]. split; [exact H3|].
  exact (proj2 (H5 eq_refl)).
Defined.

(** ** Further properties of a session *)

(** What a callback writes and saves, by whether it closes the figure. *)
Lemma handle_closing (s : PointSelector) (ev : event) :
  paired s ->
  let o := handle ev s in
  (closes (output o) = false
   /\ dumps (output o) = [] /\ snapshots (output o) = []
   /\ tables (output o) = [])
  \/ (closes (output o) = true
      /\ click_state s = 1 /\ click_state (state o) = 0
      /\ num_points s <= len (pts_center (state o))
      /\ num_points s <= len (pts_other (state o))
      /\ length (pts_other (state o)) = S (length (pts_other s))
      /\ draws (output o) = [frame_of (state o)]
      /\ dumps (output o) = [json_of (state o)]
      /\ snapshots (output o) = [artists (frame_of (state o))]
      /\ tables (output o) = [numbered_pairs (state o)]).
Proof.
  intros P. cbn zeta.
  destruct (handle_cases s ev P)
    as [ | x y Hc Hx s' | x y Hc Hx q s' | x y Hw | l p Hc El Ll s'
       | l r p q Hc El Er Ll s' | Hc El Er | s' | key Hz Hr ];
    try (left; repeat split; reflexivity).
  cbn [state output]. rewrite redraw_output.
  destruct (_ && _) eqn:E.
  - right. apply andb_true_iff in E. destruct E as [E1 E2].
    apply Z.leb_le in E1, E2.
    split; [reflexivity|]. split; [exact Hc|]. split; [reflexivity|].
    split; [exact E1|]. split; [exact E2|].
    split; [|repeat split; reflexivity].
    subst s'. cbn. rewrite length_app. cbn. lia.
  - left. repeat split; reflexivity.
Qed.

Lemma closes_app (a b : list effect) : closes (a ++ b) = closes a || closes b.
Proof. apply existsb_app. Qed.

(** A session's trace holds a record exactly when a callback closed the
    figure, and then the one written from the final object. *)
Lemma show_dumps (events : list event) (s : PointSelector) :
  paired s ->
  let o := show events s in
  dumps (output o) = (if closes (output o) then [json_of (state o)] else [])
  /\ snapshots (output o)
     = (if closes (output o) then [artists (frame_of (state o))] else []).
Proof.
  revert s. induction events as [|ev events IH]; intros s P; cbn zeta.
  - split; reflexivity.
  - cbn [show].
    destruct (handle_paired s ev P) as (P' & _).
    destruct (handle_closing s ev P)
      as [(C & D & S & _)|(C & _ & _ & _ & _ & _ & _ & D & S & _)];
      rewrite C; cbn [state output].
    + rewrite closes_app, C. unfold dumps, snapshots in *.
      rewrite !flat_map_app, D, S. cbn [orb app].
      apply (IH _ P').
    + rewrite C, D, S. split; reflexivity.
Qed.

(** The session closes itself with exactly [num_points] points on each
    side (for a target of at least one pair). *)
Lemma show_closed_exact (events : list event) (s : PointSelector) :
  paired s ->
  1 <= num_points s ->
  committed_count s < num_points s ->
  closes (output (show events s)) = true ->
  let s' := state (show events s) in
  len (pts_center s') = num_points s
  /\ len (pts_other s') = num_points s
  /\ click_state s' = 0.
Proof.
  revert s. induction events as [|ev events IH]; intros s P N C O; cbn zeta.
  - discriminate O.
  - cbn [show] in *.
    destruct (handle_paired s ev P) as (P' & _ & _ & Hn).
    destruct (handle_closing s ev P)
      as [(E & _)|(E & Hc & Hc' & E1 & E2 & Hlen & _)];
      rewrite E in *; cbn [state output] in *.
    + rewrite closes_app, E in O. cbn [orb] in O.
      rewrite <- Hn. apply IH; rewrite ?Hn; try assumption.
      apply handle_open_count; assumption.
    + destruct P' as [[_ Pl]|[Pc _]]; [|congruence].
      destruct P as [[Pc _]|[_ Pl0]]; [congruence|].
      unfold committed_count, len in *. lia.
Qed.

(** X5.  When a session with a target of at least one pair ends because the
    selector closed the figure, [pick_points] returns two arrays of exactly
    [num_points] rows each, and no left point is pending. *)
Theorem closed_session_returns_target_rows
  (w : Z) (name : string) (n : Z) (events : list event) :
  1 <= n ->
  closes (output (show events (init n name w))) = true ->
  let o := pick_points w name n events in
  exists a b,
    result o = inl (a, b)
    /\ len a = n /\ len b = n
    /\ click_state (state o) = 0.
Proof.
  intros N O. cbn zeta. unfold pick_points. rewrite get_points_outcome.
  cbn [result state]. do 2 eexists. split; [reflexivity|].
  destruct (show_closed_exact events (init n name w)
              (paired_init n name w) N ltac:(cbn; lia) O)
    as (HL & HR & HC).
  cbn [num_points init] in HL, HR.
  unfold len, np_array_float32 in *. rewrite !length_map.
  repeat split; assumption.
Qed.

Lemma closed_session_returns_target_rows_witness :
  exists a b,
    result (pick_points 400 "img4" 1 [click 50 60; click 430 70; click 3 3])
    = inl (a, b)
    /\ len a = 1 /\ len b = 1
    /\ click_state
         (state (pick_points 400 "img4" 1
                   [click 50 60; click 430 70; click 3 3])) = 0.
Proof.
  apply (closed_session_returns_target_rows 400 "img4" 1
           [click 50 60; click 430 70; click 3 3]).
  - lia.
  - reflexivity.
Defined.

(** X6.  In a session from the freshly constructed selector, the record is
    written exactly when the selector itself closes the figure: then once,
    holding the two lists of the final object; a session the operator
    closes writes no record and saves no snapshot. *)
Theorem session_writes_record_iff_closed
  (n : Z) (name : string) (w : Z) (events : list event) :
  let o := show events (init n name w) in
  dumps (output o) = (if closes (output o) then [json_of (state o)] else [])
  /\ snapshots (output o)
     = (if closes (output o) then [artists (frame_of (state o))] else []).
Proof.
  apply show_dumps, paired_init.
Qed.

Lemma nth_error_enumerate {A : Type} (l : list A) (start k : nat) (x : A) :
  nth_error l k = Some x ->
  nth_error (enumerate start l) k = Some ((start + k)%nat, x).
Proof.
  unfold enumerate. revert start k.
  induction l as [|a l IH]; intros start k H; destruct k as [|k];
    cbn in *; try discriminate.
  - injection H as ->. rewrite Nat.add_0_r. reflexivity.
  - rewrite (IH (S start) k H). f_equal. f_equal. lia.
Qed.

Lemma nth_error_zip {A B : Type} (l : list A) (r : list B) (k : nat)
  (a : A) (b : B) :
  nth_error l k = Some a -> nth_error r k = Some b ->
  nth_error (zip l r) k = Some (a, b).
Proof.
  unfold zip. revert r k.
  induction l as [|a0 l IH]; intros r k Ha Hb; destruct k as [|k], r as [|b0 r];
    cbn in *; try discriminate.
  - congruence.
  - apply IH; assumption.
Qed.

(** X9.  The pairs that [redraw] draws and [save_results] tabulates are as
    many as the shorter list has points, and the entry at position [k]
    (from 0) carries the number [k+1] with the left point and the right
    point at position [k] of their lists. *)
Theorem numbered_pairs_rows (s : PointSelector) :
  length (numbered_pairs s)
  = Nat.min (length (pts_center s)) (length (pts_other s))
  /\ forall k l r,
       nth_error (pts_center s) k = Some l ->
       nth_error (pts_other s) k = Some r ->
       nth_error (numbered_pairs s) k = Some (S k, (l, r)).
Proof.
  unfold numbered_pairs. split.
  - rewrite length_enumerate. unfold zip. apply length_combine.
  - intros k l r Hl Hr.
    apply (nth_error_enumerate _ 1 k), nth_error_zip; assumption.
Qed.

(** ** The composite image *)

(** X10.  The canvas built in [__init__] is as high as the higher image and
    as wide as both together; the center image, converted to RGB, fills its
    top-left corner, the other image, converted to RGB, starts at column
    [width center] of row 0, so a canvas pixel at column [c >= width center]
    is the pixel of the other image at column [c - width center]; the two
    never overlap and every other canvas pixel is black. *)
Theorem combined_layout (center_img other_img : Image) :
  let canvas := combined center_img other_img in
  let h1 := height center_img in
  let w1 := width center_img in
  let h2 := height other_img in
  let w2 := width other_img in
  height canvas = Nat.max h1 h2
  /\ width canvas = (w1 + w2)%nat
  /\ forall r c,
       (r < height canvas)%nat -> (c < width canvas)%nat ->
       pix canvas r c
       = if (c <? w1)%nat then
           if (r <? h1)%nat then pix (cvtColor_BGR2RGB center_img) r c
           else (Byte.x00, Byte.x00, Byte.x00)
         else
           if (r <? h2)%nat
           then pix (cvtColor_BGR2RGB other_img) r (c - w1)
           else (Byte.x00, Byte.x00, Byte.x00).
Proof.
  cbn zeta. split; [reflexivity|]. split; [reflexivity|].
  intros r c Hr Hc.
  unfold combined, assign_block, np_zeros. cbn [pix height width cvtColor_BGR2RGB] in *.
  unfold combined, assign_block, np_zeros in Hr, Hc.
  cbn [pix height width cvtColor_BGR2RGB] in Hr, Hc.
  rewrite !Nat.sub_0_r. cbn [Nat.leb andb].
  repeat match goal with
         | |- context [(?a <? ?b)%nat] => destruct (Nat.ltb_spec a b)
         | |- context [(?a <=? ?b)%nat] => destruct (Nat.leb_spec a b)
         end; cbn [andb]; try reflexivity; lia.
Qed.

(** ** The program *)

Lemma handle_keeps_name (s : PointSelector) (ev : event) :
  paired s -> other_name (state (handle ev s)) = other_name s.
Proof.
  intros P. destruct (handle_cases s ev P); reflexivity.
Qed.

Lemma show_keeps_name (events : list event) (s : PointSelector) :
  paired s -> other_name (state (show events s)) = other_name s.
Proof.
  revert s. induction events as [|ev events IH]; intros s P; [reflexivity|].
  cbn [show]. destruct (handle_paired s ev P) as (P' & _).
  destruct (closes (output (handle ev s))); cbn [state].
  - apply handle_keeps_name, P.
  - rewrite (IH _ P'). apply handle_keeps_name, P.
Qed.

Lemma in_dumps (t : list effect) (d : JsonData) :
  In (JsonDump d) t <-> In d (dumps t).
Proof.
  unfold dumps. rewrite in_flat_map. split.
  - intros H. exists (JsonDump d). split; [exact H | left; reflexivity].
  - intros (e & He & Hd). destruct e as [m|fr| |d'|a]; cbn in Hd;
      try contradiction.
    destruct Hd as [->|[]]. exact He.
Qed.

(** X11.  Whatever files load and whatever the operator does, every record
    [main] writes belongs to one of its two images, carries that image's
    stem, and holds exactly six points on each side, each a list of two
    numbers; it is the only record of its session, and the session returns
    two arrays of six rows. *)
Theorem main_writes_complete_records
  (stem : string -> string) (imread : string -> option Image)
  (operator : string -> list event)
  (path : string)
  (session : outcome (list (list spec_float) * list (list spec_float)))
  (d : JsonData) :
  In (Picking path session) (main stem imread operator) ->
  In (JsonDump d) (output session) ->
  In path other_paths
  /\ image_pair d = stem path
  /\ length (points_center d) = 6%nat
  /\ length (points_other d) = 6%nat
  /\ (forall row, In row (points_center d ++ points_other d) ->
                  length row = 2%nat)
  /\ dumps (output session) = [d]
  /\ exists a b,
       result session = inl (a, b)
       /\ length a = 6%nat /\ length b = 6%nat.
Proof.
  unfold main. intros Hm Hd.
  destruct (imread center_path) as [center_img|].
  2:{ destruct Hm as [Hm|[]]. discriminate Hm. }
  apply in_map_iff in Hm. destruct Hm as (p & Hp & Hin).
  destruct (imread p) as [other_img|]; [|discriminate Hp].
  injection Hp as -> <-.
  unfold pick_points_on, new_selector in *.
  set (s0 := init 6 (stem path)
               (Z.of_nat (width (cvtColor_BGR2RGB center_img)))) in *.
  rewrite get_points_outcome in *. cbn [output result] in *.
  rewrite app_nil_r in *.
  assert (P0 : paired s0) by apply paired_init.
  destruct (show_dumps (operator path) s0 P0) as (Hdumps & _).
  apply in_dumps in Hd. rewrite Hdumps in Hd.
  destruct (closes (output (show (operator path) s0))) eqn:C;
    [|destruct Hd].
  destruct Hd as [<-|[]].
  assert (N1 : 1 <= num_points s0) by discriminate.
  assert (N2 : committed_count s0 < num_points s0) by reflexivity.
  destruct (show_closed_exact (operator path) s0 P0 N1 N2 C)
    as (HL & HR & _).
  change (num_points s0) with 6 in HL, HR. unfold len in HL, HR.
  split; [exact Hin|].
  split; [cbn [json_of image_pair]; apply (show_keeps_name _ s0 P0)|].
  cbn [json_of points_center points_other]. rewrite !length_map.
  split; [lia|]. split; [lia|]. split; [|split].
  - intros row Hrow. apply in_app_or in Hrow.
    destruct Hrow as [H|H]; apply in_map_iff in H;
      destruct H as (pt & <- & _); reflexivity.
  - exact Hdumps.
  - do 2 eexists. split; [reflexivity|].
    unfold np_array_float32. rewrite !length_map.
    unfold Point in *. split; lia.
Qed.

Lemma main_writes_complete_records_witness :
  In "photos/img4.jpg"%string other_paths
  /\ image_pair (json_of (state img4_session))
     = (fun p : string => p) "photos/img4.jpg"%string
  /\ length (points_center (json_of (state img4_session))) = 6%nat
  /\ length (points_other (json_of (state img4_session))) = 6%nat
  /\ (forall row,
        In row (points_center (json_of (state img4_session))
                ++ points_other (json_of (state img4_session))) ->
        length row = 2%nat)
  /\ dumps (output img4_session) = [json_of (state img4_session)]
  /\ exists a b,
       result img4_session = inl (a, b)
       /\ length a = 6%nat /\ length b = 6%nat.
Proof.
  refine (main_writes_complete_records
            (fun p : string => p)
            (fun _ : string => Some (np_zeros 300 400))
            (fun _ : string => six_pairs)
            "photos/img4.jpg" img4_session
            (json_of (state img4_session)) _ _).
  - cbv beta iota delta [main other_paths map img4_session].
    left. reflexivity.
  - apply in_dumps. vm_compute. left. reflexivity.
Defined.

(** X12.  A session with a target of at least one pair never holds more
    than [num_points] points on either side, and while the figure is open
    fewer than [num_points] right points. *)
Theorem session_never_exceeds_target
  (n : Z) (name : string) (w : Z) (events : list event) :
  1 <= n ->
  let o := show events (init n name w) in
  len (pts_center (state o)) <= n
  /\ len (pts_other (state o)) <= n
  /\ (closes (output o) = false -> len (pts_other (state o)) < n).
Proof.
  intros N. cbn zeta.
  pose proof (paired_init n name w) as P0.
  assert (C0 : committed_count (init n name w) < num_points (init n name w))
    by (cbn; lia).
  destruct (closes (output (show events (init n name w)))) eqn:C.
  - destruct (show_closed_exact events _ P0 N C0 C) as (HL & HR & _).
    cbn [num_points init] in HL, HR.
    split; [lia|]. split; [lia|]. discriminate.
  - pose proof (show_open_count events _ P0 N C0 C) as H.
    cbn [num_points init] in H.
    pose proof (reachable_paired _
                  (show_reachable events _ (reach_init n name w))) as P.
    unfold committed_count, len, paired in *.
    destruct P as [[_ Pl]|[_ Pl]]; rewrite Pl in *; repeat split; lia.
Qed.

Lemma session_never_exceeds_target_witness :
  len (pts_center
         (state (show [click 50 60; click 430 70; click 3 3]
                      (init 1 "img4" 400)))) <= 1
  /\ len (pts_other
            (state (show [click 50 60; click 430 70; click 3 3]
                         (init 1 "img4" 400)))) <= 1
  /\ (closes (output (show [click 50 60; click 430 70; click 3 3]
                           (init 1 "img4" 400))) = false ->
      len (pts_other
             (state (show [click 50 60; click 430 70; click 3 3]
                          (init 1 "img4" 400)))) < 1).
Proof.
  apply (session_never_exceeds_target 1 "img4" 400
           [click 50 60; click 430 70; click 3 3]).
  lia.
Defined.

(** ** The single-image recorder *)

Module RecordPointsFacts.
Import RecordPoints.

Lemma Zpos_iter_xO (p k : positive) :
  Zpos (Pos.iter xO p k) = Zpos p * 2 ^ Zpos k.
Proof.
  induction k as [|k IH] using Pos.peano_ind.
  - cbn. lia.
  - rewrite Pos.iter_succ, Pos2Z.inj_xO, IH, Pos2Z.inj_succ, Z.pow_succ_r by lia.
    lia.
Qed.

(** An integer below 2^53 is stored with its digits shifted to the top of
    the mantissa. *)
Lemma binary_normalize_small_value (p : positive) :
  Zpos p < 2 ^ 53 ->
  exists m e,
    binary_normalize prec emax (Zpos p) 0 false = S754_finite false m e
    /\ e <= 0 /\ Zpos m = Zpos p * 2 ^ (- e).
Proof.
  intros H. pose proof (digits2_pos_bound p H) as D.
  unfold binary_normalize, binary_round.
  set (d := digits2_pos p) in *.
  assert (Hf : fexp prec emax (Zpos d + 0) = Zpos d - 53).
  { unfold fexp, emin, prec, emax. lia. }
  rewrite Hf.
  assert (exists mz, shl_align p 0 (Zpos d - 53) = (mz, Zpos d - 53)
                     /\ Zpos (digits2_pos mz) = 53
                     /\ Zpos mz = Zpos p * 2 ^ (- (Zpos d - 53)))
    as (mz & Hs & Hd & Hv).
  { unfold shl_align. rewrite Z.sub_0_r.
    destruct (Zpos d - 53) as [|q|q] eqn:Eq.
    - exists p. split; [reflexivity|]. split; [fold d; lia|]. cbn. lia.
    - lia.
    - exists (Pos.iter xO p q). split; [reflexivity|].
      split; [rewrite digits2_pos_iter_xO; fold d; lia|].
      apply Zpos_iter_xO. }
  rewrite Hs. unfold binary_round_aux.
  assert (Hsh : forall l, l = loc_Exact ->
            shr_fexp prec emax (Zpos mz) (Zpos d - 53) l
            = ({| shr_m := Zpos mz; shr_r := false; shr_s := false |},
               Zpos d - 53)).
  { intros l ->. unfold shr_fexp, Zdigits2. rewrite Hd.
    replace (fexp prec emax (53 + (Zpos d - 53)) - (Zpos d - 53)) with 0.
    - reflexivity.
    - unfold fexp, emin, prec, emax. lia. }
  rewrite (Hsh _ eq_refl). cbn [shr_m loc_of_shr_record round_nearest_even].
  rewrite (Hsh _ eq_refl). cbn [shr_m].
  replace (Zpos d - 53 <=? emax - prec) with true.
  - exists mz, (Zpos d - 53). split; [reflexivity|]. split; [lia | exact Hv].
  - symmetry. apply Z.leb_le. unfold emax, prec. lia.
Qed.

(** [int(float(n)) = n] for a non-negative int below 2^53. *)
Lemma int_of_float_of_int (n : Z) :
  0 <= n < 2 ^ 53 -> int_of_float (float_of_int n) = inl n.
Proof.
  intros [H0 H1]. destruct n as [|p|p]; [reflexivity| |lia].
  unfold int_of_float, float_of_int.
  destruct (binary_normalize_small_value p H1) as (m & e & E & He & Hv).
  rewrite of_uint63_spec, Uint63.of_Z_spec, Z.mod_small.
  - rewrite E. cbn zeta. f_equal.
    destruct (0 <=? e) eqn:E0.
    + apply Z.leb_le in E0. assert (e = 0) by lia. subst e.
      cbn in Hv |- *. lia.
    + rewrite Hv. apply Z.div_mul.
      apply Z.pow_nonzero; lia.
  - split; [lia|]. assert (2 ^ 53 < Uint63Axioms.wB) by reflexivity. lia.
Qed.

Lemma deliver_grows (acc : list (Z * Z) * list effect) (event : MouseEvent) :
  exists added,
    fst (deliver acc event) = fst acc ++ added
    /\ (length added <= 1)%nat
    /\ (added = [] \/
        exists x y, added = [(x, y)]
          /\ snd (deliver acc event)
             = snd acc ++ [PointSelected (x, y); PlotRedDot x y; DrawFigure]).
Proof.
  unfold deliver, onclick.
  destruct (xdata event) as [xd|], (ydata event) as [yd|];
    try (exists []; cbn; rewrite ?app_nil_r; repeat split; auto; fail).
  destruct (int_of_float xd) as [x|e];
    [|exists []; cbn; rewrite ?app_nil_r; repeat split; auto].
  destruct (int_of_float yd) as [y|e];
    [|exists []; cbn; rewrite ?app_nil_r; repeat split; auto].
  exists [(x, y)]. cbn. repeat split; auto.
  right. exists x, y. split; reflexivity.
Qed.

Lemma fold_deliver_grows (events : list MouseEvent)
  (acc : list (Z * Z) * list effect) :
  exists added,
    fst (fold_left deliver events acc) = fst acc ++ added
    /\ (length added <= length events)%nat.
Proof.
  revert acc. induction events as [|ev events IH]; intros acc.
  - exists []. cbn. rewrite app_nil_r. split; [reflexivity | lia].
  - cbn [fold_left].
    destruct (deliver_grows acc ev) as (a1 & E1 & L1 & _).
    destruct (IH (deliver acc ev)) as (a2 & E2 & L2).
    exists (a1 ++ a2). rewrite E2, E1, <- app_assoc, length_app.
    cbn [length]. split; [reflexivity | lia].
Qed.

End RecordPointsFacts.

(** X14.  The recorder only ever appends: the points recorded after more
    clicks are the points recorded before, in the same order, followed by
    at most one new point per further click; and the final print shows
    exactly the recorded list. *)
Theorem recorded_points_only_grow
  (events more : list RecordPoints.MouseEvent) :
  exists added,
    fst (RecordPoints.script (events ++ more))
    = fst (RecordPoints.script events) ++ added
    /\ (length added <= length more)%nat
    /\ last (snd (RecordPoints.script (events ++ more)))
            RecordPoints.DrawFigure
       = RecordPoints.FinalPoints
           (fst (RecordPoints.script (events ++ more))).
Proof.
  unfold RecordPoints.script. cbn zeta. cbn [fst snd].
  rewrite fold_left_app.
  destruct (RecordPointsFacts.fold_deliver_grows more
              (fold_left RecordPoints.deliver events ([], [])))
    as (added & E & L).
  exists added. split; [exact E|]. split; [exact L|].
  apply last_last.
Qed.

(** X15.  A click exactly on integer coordinates [(n, m)], both
    non-negative and below 2^53, returns normally and records the point
    [(n, m)] itself at the end of the list, printing it and plotting the
    dot there. *)
Theorem integer_click_is_recorded_exactly
  (n m : Z) (points : list (Z * Z)) :
  0 <= n < 2 ^ 53 ->
  0 <= m < 2 ^ 53 ->
  RecordPoints.onclick
    (RecordPoints.mkEvent (Some (float_of_int n)) (Some (float_of_int m)))
    points
  = RecordPoints.mkOut None (points ++ [(n, m)])
      [RecordPoints.PointSelected (n, m); RecordPoints.PlotRedDot n m;
       RecordPoints.DrawFigure].
Proof.
  intros Hn Hm. unfold RecordPoints.onclick.
  cbn [RecordPoints.xdata RecordPoints.ydata].
  rewrite (RecordPointsFacts.int_of_float_of_int n Hn),
          (RecordPointsFacts.int_of_float_of_int m Hm).
  reflexivity.
Qed.

Lemma integer_click_is_recorded_exactly_witness :
  RecordPoints.onclick
    (RecordPoints.mkEvent (Some (float_of_int 120)) (Some (float_of_int 45)))
    [(3, 4)]
  = RecordPoints.mkOut None ([(3, 4)] ++ [(120, 45)])
      [RecordPoints.PointSelected (120, 45); RecordPoints.PlotRedDot 120 45;
       RecordPoints.DrawFigure].
Proof.
  apply integer_click_is_recorded_exactly; lia.
Defined.

(** ** Single precision of a small integer *)

Lemma digits2_pos_bound24 (p : positive) :
  Zpos p < 2 ^ 24 -> Zpos (digits2_pos p) <= 24.
Proof.
  intros H. rewrite digits2_pos_size.
  pose proof (Pos.size_le p) as L.
  assert (2 ^ Zpos (Pos.size p) <= 2 * Zpos p) as L'.
  { rewrite <- Pos2Z.inj_pow. change (2 * Zpos p) with (Zpos p~0). exact L. }
  destruct (Z_le_gt_dec (Zpos (Pos.size p)) 24) as [?|G]; [assumption|].
  assert (2 ^ 25 <= 2 ^ Zpos (Pos.size p)) by (apply Z.pow_le_mono_r; lia).
  change (2 ^ 25) with (2 * 2 ^ 24) in *. lia.
Qed.

(** The double of an integer below 2^24: its digits at the top of the
    53-bit mantissa, at least 29 zero bits below them. *)
Lemma Prim2SF_small_int (p : positive) :
  Zpos p < 2 ^ 24 ->
  exists q : positive,
    Zpos (digits2_pos q) = 24
    /\ Zpos q = Zpos p * 2 ^ (24 - Zpos (digits2_pos p))
    /\ Prim2SF (float_of_int (Zpos p))
       = S754_finite false (Pos.iter xO q 29) (Zpos (digits2_pos p) - 53).
Proof.
  intros H. pose proof (digits2_pos_bound24 p H) as D.
  set (d := digits2_pos p) in *.
  assert (Hq : exists q : positive,
             Zpos (digits2_pos q) = 24
             /\ Zpos q = Zpos p * 2 ^ (24 - Zpos d)
             /\ Pos.iter xO p (Z.to_pos (53 - Zpos d)) = Pos.iter xO q 29).
  { destruct (Z.eq_dec (Zpos d) 24) as [E|E].
    - exists p. split; [exact E|]. split; [rewrite E; cbn; lia|].
      rewrite E. reflexivity.
    - exists (Pos.iter xO p (Z.to_pos (24 - Zpos d))).
      split; [rewrite digits2_pos_iter_xO; fold d; lia|].
      split.
      + rewrite RecordPointsFacts.Zpos_iter_xO, Z2Pos.id by lia. reflexivity.
      + rewrite <- Pos.iter_add. f_equal. lia. }
  destruct Hq as (q & Hd & Hv & Hi). exists q.
  split; [exact Hd|]. split; [exact Hv|].
  unfold float_of_int. rewrite of_uint63_spec, Uint63.of_Z_spec, Z.mod_small.
  2:{ split; [lia|]. assert (2 ^ 24 < Uint63Axioms.wB) by reflexivity. lia. }
  unfold binary_normalize, binary_round. fold d.
  assert (Hf : fexp prec emax (Zpos d + 0) = Zpos d - 53).
  { unfold fexp, emin, prec, emax. lia. }
  rewrite Hf.
  assert (Hs : shl_align p 0 (Zpos d - 53)
               = (Pos.iter xO q 29, Zpos d - 53)).
  { unfold shl_align. rewrite Z.sub_0_r.
    destruct (Zpos d - 53) as [|k|k] eqn:Ek; try lia.
    rewrite <- Hi. do 2 f_equal. lia. }
  rewrite Hs. unfold binary_round_aux.
  assert (Hdig : Zpos (digits2_pos (Pos.iter xO q 29)) = 53).
  { rewrite digits2_pos_iter_xO. lia. }
  assert (Hsh : forall l, l = loc_Exact ->
            shr_fexp prec emax (Zpos (Pos.iter xO q 29)) (Zpos d - 53) l
            = ({| shr_m := Zpos (Pos.iter xO q 29);
                  shr_r := false; shr_s := false |}, Zpos d - 53)).
  { intros l ->. unfold shr_fexp, Zdigits2. rewrite Hdig.
    replace (fexp prec emax (53 + (Zpos d - 53)) - (Zpos d - 53)) with 0.
    - reflexivity.
    - unfold fexp, emin, prec, emax. lia. }
  rewrite (Hsh _ eq_refl). cbn [shr_m loc_of_shr_record round_nearest_even].
  rewrite (Hsh _ eq_refl). cbn [shr_m].
  replace (Zpos d - 53 <=? emax - prec) with true; [reflexivity|].
  symmetry. apply Z.leb_le. unfold emax, prec. lia.
Qed.

(** Rounding the double of an integer below 2^24 to single precision loses
    nothing: the result is the binary32 number with that very value. *)
Lemma round32_small_int (n : Z) :
  0 < n < 2 ^ 24 ->
  exists m e,
    astype_float32 (float_of_int n) = S754_finite false m e
    /\ e <= 0 /\ Zpos m = n * 2 ^ (- e).
Proof.
  intros [H0 H1]. destruct n as [|p|p]; try lia.
  destruct (Prim2SF_small_int p H1) as (q & Hd & Hv & E).
  pose proof (digits2_pos_bound24 p H1) as D.
  set (d := digits2_pos p) in *.
  unfold astype_float32. rewrite E. cbn [cond_Zopp].
  exists q, (Zpos d - 24). split; [|split; [lia|]].
  2:{ rewrite Hv. f_equal. f_equal. lia. }
  unfold binary_normalize, binary_round.
  assert (Hdig : Zpos (digits2_pos (Pos.iter xO q 29)) = 53).
  { rewrite digits2_pos_iter_xO. lia. }
  rewrite Hdig.
  assert (Hf : fexp 24 128 (53 + (Zpos d - 53)) = Zpos d - 24).
  { unfold fexp, emin. lia. }
  rewrite Hf.
  assert (Hs : shl_align (Pos.iter xO q 29) (Zpos d - 53) (Zpos d - 24)
               = (Pos.iter xO q 29, Zpos d - 53)).
  { unfold shl_align.
    replace (Zpos d - 24 - (Zpos d - 53)) with 29 by lia. reflexivity. }
  rewrite Hs. unfold binary_round_aux.
  assert (Hsh1 : shr_fexp 24 128 (Zpos (Pos.iter xO q 29)) (Zpos d - 53)
                   loc_Exact
                 = ({| shr_m := Zpos q; shr_r := false; shr_s := false |},
                    Zpos d - 24)).
  { unfold shr_fexp, Zdigits2. rewrite Hdig, Hf.
    replace (Zpos d - 24 - (Zpos d - 53)) with 29 by lia.
    unfold shr. apply f_equal2; [reflexivity | lia]. }
  rewrite Hsh1. cbn [shr_m loc_of_shr_record round_nearest_even].
  assert (Hsh2 : shr_fexp 24 128 (Zpos q) (Zpos d - 24) loc_Exact
                 = ({| shr_m := Zpos q; shr_r := false; shr_s := false |},
                    Zpos d - 24)).
  { unfold shr_fexp, Zdigits2. rewrite Hd.
    replace (fexp 24 128 (24 + (Zpos d - 24)) - (Zpos d - 24)) with 0.
    - reflexivity.
    - unfold fexp, emin. lia. }
  rewrite Hsh2. cbn [shr_m].
  replace (Zpos d - 24 <=? 128 - 24) with true; [reflexivity|].
  symmetry. apply Z.leb_le. lia.
Qed.

(** ** What is drawn, returned and closed *)

(** In a concatenation of blocks of one length, block [k] is the image of
    element [k]. *)
Lemma flat_map_block {A B : Type} (f : A -> list B) (n : nat) (l : list A)
  (k : nat) (x : A) :
  (forall a, length (f a) = n) ->
  nth_error l k = Some x ->
  firstn n (skipn (n * k) (flat_map f l)) = f x.
Proof.
  intros Hn. revert k. induction l as [|a l IH]; intros k H.
  - destruct k; discriminate H.
  - destruct k as [|k]; cbn [nth_error flat_map] in *.
    + injection H as ->. rewrite Nat.mul_0_r. cbn [skipn].
      rewrite firstn_app, (Hn x), Nat.sub_diag, firstn_all2 by (rewrite Hn; lia).
      cbn [firstn]. apply app_nil_r.
    + replace (n * S k)%nat with (length (f a) + n * k)%nat
        by (rewrite Hn; lia).
      rewrite skipn_app, skipn_all2 by lia.
      replace (length (f a) + n * k - length (f a))%nat with (n * k)%nat by lia.
      cbn [app]. apply IH, H.
Qed.

(** C9.  [redraw] leaves the object as it is and draws one frame that holds
    the committed pairs and nothing else: five artists for each of the first
    [min(len(pts_center), len(pts_other))] positions, and for position [k]
    (from 0), with left point [(xL, yL)] and right point [(xR, yR)], in this
    order the line from [(xL, yL)] to [(xR + w1, yR)], a marker on each of
    these two ends and the label [k+1] five units above each of them.  A
    pending left point, the last of [pts_center], stays in the object and
    has no artist: the frame has five artists per right point. *)
Theorem redraw_draws_committed_pairs (s : PointSelector) :
  let m := Nat.min (length (pts_center s)) (length (pts_other s)) in
  let w := float_of_int (w1 s) in
  exists fr : Frame,
    redraw s = mkOut (inl tt) s [Draw fr]
    /\ length (artists fr) = (5 * m)%nat
    /\ (forall k xL yL xR yR,
          nth_error (pts_center s) k = Some (xL, yL) ->
          nth_error (pts_other s) k = Some (xR, yR) ->
          firstn 5 (skipn (5 * k) (artists fr))
          = [ Line (xL, (xR + w)%float) (yL, yR);
              Marker xL yL;
              Marker (xR + w)%float yR;
              Text xL (yL - 5)%float (S k);
              Text (xR + w)%float (yR - 5)%float (S k) ])
    /\ (forall l p,
          pts_center s = l ++ [p] ->
          length l = length (pts_other s) ->
          pts_center (state (redraw s)) = l ++ [p]
          /\ length (artists fr) = (5 * length l)%nat
          /\ redraw (with_points s l (pts_other s) (click_state s))
             = mkOut (inl tt) (with_points s l (pts_other s) (click_state s))
                 [Draw (mkFrame (artists fr) (length l) (num_points s))]).
Proof.
  cbn zeta. eexists. split; [apply redraw_outcome|]. cbn [artists].
  assert (Hlen : length (flat_map (pair_artists (w1 s)) (numbered_pairs s))
                 = (5 * Nat.min (length (pts_center s))
                                (length (pts_other s)))%nat).
  { rewrite length_flat_map_artists. unfold numbered_pairs.
    rewrite length_enumerate. unfold zip. rewrite length_combine.
    reflexivity. }
  split; [exact Hlen|]. split.
  - intros k xL yL xR yR HL HR.
    rewrite (flat_map_block (pair_artists (w1 s)) 5 (numbered_pairs s) k
               (S k, ((xL, yL), (xR, yR)))).
    + reflexivity.
    + apply length_pair_artists.
    + unfold numbered_pairs.
      apply (nth_error_enumerate _ 1 k), nth_error_zip; assumption.
  - intros l p El Ll. split; [exact El|]. split.
    + rewrite Hlen, El, length_app. cbn [length]. f_equal. lia.
    + rewrite redraw_outcome. unfold numbered_pairs.
      cbn [with_points w1 pts_center pts_other num_points].
      rewrite El, (zip_dangling l p (pts_other s) Ll). reflexivity.
Qed.

Lemma redraw_draws_committed_pairs_witness :
  exists fr : Frame,
    redraw dangling_demo = mkOut (inl tt) dangling_demo [Draw fr]
    /\ pts_center dangling_demo = [(50, 60); (3, 3)]%float
    /\ artists fr
       = [ Line (50, 430)%float (60, 70)%float;
           Marker 50 60; Marker 430 70;
           Text 50 55 1; Text 430 65 1 ]%float.
Proof.
  destruct (redraw_draws_committed_pairs dangling_demo)
    as (fr & H1 & H2 & H3 & _).
  exists fr. split; [exact H1|]. split; [reflexivity|].
  rewrite <- (firstn_all (artists fr)), H2.
  exact (H3 0%nat 50%float 60%float 30%float 70%float eq_refl eq_refl).
Defined.

(** C10.  [pick_points] (construct, then [get_points]) returns normally,
    whatever the operator did before the window closed.  Its two arrays have
    one row for every point of [pts_center] and of [pts_other], in order, a
    pending left point included, and row [k] holds the two coordinates
    recorded at position [k], each rounded to single precision (to nearest,
    ties to even, at 24 bits of mantissa and exponent bound 128; zeros,
    infinities and NaN as they are); a coordinate that is a positive integer
    below 2^24 comes back as the single-precision number of that very
    value.  If the session ended awaiting the right click, the first array
    has exactly one row more than the second. *)
Theorem get_points_returns_all_points
  (w : Z) (name : string) (n : Z) (events : list event) :
  let o := pick_points w name n events in
  let round32 := fun x : float =>
    match Prim2SF x with
    | S754_finite s m e => binary_normalize 24 128 (cond_Zopp s (Zpos m)) e s
    | sf => sf
    end in
  exists a b,
    result o = inl (a, b)
    /\ state o = state (show events (init n name w))
    /\ length a = length (pts_center (state o))
    /\ length b = length (pts_other (state o))
    /\ (forall k x y,
          nth_error (pts_center (state o)) k = Some (x, y) ->
          nth_error a k = Some [round32 x; round32 y])
    /\ (forall k x y,
          nth_error (pts_other (state o)) k = Some (x, y) ->
          nth_error b k = Some [round32 x; round32 y])
    /\ (forall c : Z,
          0 < c < 2 ^ 24 ->
          exists m e,
            round32 (float_of_int c) = S754_finite false m e
            /\ e <= 0 /\ Zpos m = c * 2 ^ (- e))
    /\ (click_state (state o) = 1 -> length a = S (length b))
    /\ (click_state (state o) = 0 -> length a = length b).
Proof.
  cbn zeta. unfold pick_points. rewrite get_points_outcome.
  cbn [result state]. do 2 eexists.
  split; [reflexivity|]. split; [reflexivity|].
  unfold np_array_float32. rewrite !length_map.
  split; [reflexivity|]. split; [reflexivity|].
  split; [|split; [|split]].
  - intros k x y H.
    exact (map_nth_error
             (fun pt : Point => [astype_float32 (fst pt); astype_float32 (snd pt)])
             k _ H).
  - intros k x y H.
    exact (map_nth_error
             (fun pt : Point => [astype_float32 (fst pt); astype_float32 (snd pt)])
             k _ H).
  - exact round32_small_int.
  - pose proof (reachable_paired _
                  (show_reachable events _ (reach_init n name w))) as P.
    destruct P as [[Hc Hl]|[Hc Hl]]; split; intros H;
      first [ exact Hl | rewrite Hc in H; discriminate H ].
Qed.

Lemma get_points_returns_all_points_witness :
  exists a b,
    result (pick_points 400 "img4" 6
              [Click (InAxes 50.25 0x1.999999999999ap-4);
               Click (InAxes 430.5 70.5);
               Click (InAxes 0x1.0000001p+1 3)]%float)
    = inl (a, b)
    /\ nth_error a 0
       = Some [S754_finite false 13172736 (-18);
               S754_finite false 13421773 (-27)]
    /\ nth_error a 1
       = Some [S754_finite false 8388608 (-22);
               S754_finite false 12582912 (-22)]
    /\ nth_error b 0
       = Some [S754_finite false 15990784 (-19);
               S754_finite false 9240576 (-17)]
    /\ length a = 2%nat /\ length b = 1%nat.
Proof.
  destruct (get_points_returns_all_points 400 "img4" 6
              [Click (InAxes 50.25 0x1.999999999999ap-4);
               Click (InAxes 430.5 70.5);
               Click (InAxes 0x1.0000001p+1 3)]%float)
    as (a & b & H1 & _ & Ha & Hb & HA & HB & _ & _).
  exists a, b. split; [exact H1|].
  split; [exact (HA 0%nat 50.25%float 0x1.999999999999ap-4%float eq_refl)|].
  split; [exact (HA 1%nat 0x1.0000001p+1%float 3%float eq_refl)|].
  split; [exact (HB 0%nat 30.5%float 70.5%float eq_refl)|].
  split; [exact Ha | exact Hb].
Defined.

(** C3, amended.  Reaching the target does not make [onclick] reject later
    clicks.  What the target does: in a reachable state, the click that
    appends a right point and thereby brings the number of committed pairs
    to [num_points] or beyond closes the figure and runs persistence in the
    same call, the record holding the two lists as that click leaves them;
    no other click closes the figure or writes anything.  [onclick] itself
    never tests the count: while awaiting a left point, whatever the number
    of committed pairs, a click on the left image is appended and the state
    becomes awaiting right. *)
Theorem target_click_closes_and_persists (s : PointSelector) (x y : float) :
  reachable s ->
  let o := onclick (InAxes x y) s in
  let w := float_of_int (w1 s) in
  (click_state s = 1 -> (w <=? x)%float = true ->
   num_points s <= len (pts_other s) + 1 ->
   triple (state o) = (pts_center s, pts_other s ++ [((x - w)%float, y)], 0)
   /\ num_points s <= committed_count (state o)
   /\ closes (output o) = true
   /\ dumps (output o)
      = [mkJson (other_name s)
                (map as_float_list (pts_center s))
                (map as_float_list (pts_other s ++ [((x - w)%float, y)]))]
   /\ result o = inl tt)
  /\ (closes (output o) = true \/ dumps (output o) <> [] ->
      click_state s = 1 /\ (w <=? x)%float = true
      /\ num_points s <= len (pts_other s) + 1)
  /\ (click_state s = 0 -> (x <? w)%float = true ->
      triple (state o) = (pts_center s ++ [(x, y)], pts_other s, 1)
      /\ result o = inl tt).
Proof.
  intros R. cbn zeta. pose proof (reachable_paired s R) as P.
  split; [|split].
  - intros Hc Hx HN.
    destruct P as [[Pc _]|[_ Pl]]; [congruence|].
    destruct (right_click_output s x y Hc Hx)
      as (Hs & [(C & E1 & E2 & Ho)|(C & E & Ho)]).
    + rewrite Ho, Hs. rewrite Hs in E1, E2.
      cbn [with_points pts_center pts_other] in E1, E2.
      split; [reflexivity|]. split.
      { unfold committed_count. cbn [with_points pts_center pts_other]. lia. }
      split; [reflexivity|]. split; [reflexivity|].
      rewrite (onclick_right s x y Hc Hx). reflexivity.
    + exfalso. rewrite Hs in E.
      cbn [with_points pts_center pts_other] in E.
      unfold len in *. rewrite length_app in E. cbn [length] in E.
      destruct E as [E|E]; lia.
  - intros H.
    assert (C : closes (output (onclick (InAxes x y) s)) = true).
    { destruct (handle_closing s (Click (InAxes x y)) P)
        as [(C & D & _)|(C & _)]; [|exact C].
      cbn [handle] in C, D. destruct H as [H|H]; [congruence|].
      rewrite D in H. contradiction. }
    clear H.
    destruct (handle_closing s (Click (InAxes x y)) P)
      as [(C' & _)|(_ & Hc & _ & _ & E2 & Hlen & _)];
      cbn [handle] in *; [congruence|].
    split; [exact Hc|].
    destruct (float_of_int (w1 s) <=? x)%float eqn:Hx.
    + split; [reflexivity|]. unfold len in *. lia.
    + rewrite onclick_ignored in C; rewrite ?Hc, ?Hx; try reflexivity.
      discriminate C.
  - intros Hc Hx. rewrite (onclick_left s x y Hc Hx). cbn [state result].
    split; reflexivity.
Qed.

Lemma target_click_closes_and_persists_witness :
  (closes (output (onclick (InAxes (coord 430) (coord 70))
                           (run [click 50 60] (demo 1)))) = true
   /\ dumps (output (onclick (InAxes (coord 430) (coord 70))
                             (run [click 50 60] (demo 1))))
      = [mkJson "img4" [[50; 60]]%float [[30; 70]]%float])
  /\ triple (state (onclick (InAxes (coord 3) (coord 3)) target_reached_demo))
     = ([(50, 60); (3, 3)]%float, [(30, 70)]%float, 1).
Proof.
  split.
  - destruct (proj1 (target_click_closes_and_persists
                       (run [click 50 60] (demo 1)) (coord 430) (coord 70)
                       (reachable_run _ _ (reach_init _ _ _)))
                    eq_refl eq_refl)
      as (_ & _ & C & D & _).
    + cbn. lia.
    + split; [exact C | exact D].
  - exact (proj1 (proj2 (proj2 (target_click_closes_and_persists
                                  target_reached_demo (coord 3) (coord 3)
                                  (reachable_run _ _ (reach_init _ _ _))))
                        eq_refl eq_refl)).
Defined.

Lemma map_snd_enumerate {A : Type} (start : nat) (l : list A) :
  map snd (enumerate start l) = l.
Proof.
  unfold enumerate. revert start. induction l as [|a l IH]; intros start;
    [reflexivity|].
  cbn. f_equal. apply IH.
Qed.

Lemma map_fst_enumerate {A : Type} (start : nat) (l : list A) :
  map fst (enumerate start l) = seq start (length l).
Proof.
  unfold enumerate. revert start. induction l as [|a l IH]; intros start;
    [reflexivity|].
  cbn. f_equal. apply IH.
Qed.

Lemma unzip_zip {A B : Type} (l : list A) (r : list B) :
  length l = length r ->
  map fst (zip l r) = l /\ map snd (zip l r) = r.
Proof.
  unfold zip. revert r. induction l as [|a l IH]; intros r H;
    destruct r as [|b r]; try discriminate H; [split; reflexivity|].
  injection H as H. destruct (IH r H) as [E1 E2]. cbn.
  rewrite E1, E2. split; reflexivity.
Qed.

(** X7.  The callback that closes the figure builds everything it shows and
    writes from the same numbered pairs, the rows of the table it prints:
    the one frame it draws and the snapshot it saves hold the artists of
    these rows, in order, the frame's title counts them, and the one record
    it writes lists the left points and the right points of these rows, in
    order; the rows are numbered 1, 2, ... without gap. *)
Theorem snapshot_matches_last_frame (s : PointSelector) (ev : event) :
  reachable s ->
  let o := handle ev s in
  closes (output o) = true ->
  exists rows : list (nat * (Point * Point)),
    tables (output o) = [rows]
    /\ map fst rows = seq 1 (length rows)
    /\ map (fun row => fst (snd row)) rows = pts_center (state o)
    /\ map (fun row => snd (snd row)) rows = pts_other (state o)
    /\ draws (output o)
       = [mkFrame (flat_map (pair_artists (w1 s)) rows)
                  (length rows) (num_points s)]
    /\ snapshots (output o) = [flat_map (pair_artists (w1 s)) rows]
    /\ dumps (output o)
       = [mkJson (other_name s)
                 (map (fun row => as_float_list (fst (snd row))) rows)
                 (map (fun row => as_float_list (snd (snd row))) rows)].
Proof.
  intros R. cbn zeta. intros O.
  pose proof (reachable_paired s R) as P.
  destruct (handle_paired s ev P) as (P' & _ & Hw & Hn).
  pose proof (handle_keeps_name s ev P) as Hname.
  destruct (handle_closing s ev P)
    as [(C & _)|(_ & _ & Hc' & _ & _ & _ & Dr & D & S & T)];
    [congruence|].
  destruct P' as [[_ Pl]|[Pc _]]; [|congruence].
  destruct (unzip_zip _ _ Pl) as [Z1 Z2].
  assert (E1 : map (fun row : nat * (Point * Point) => fst (snd row))
                   (numbered_pairs (state (handle ev s)))
               = pts_center (state (handle ev s))).
  { unfold numbered_pairs.
    rewrite <- (map_map snd fst), map_snd_enumerate. exact Z1. }
  assert (E2 : map (fun row : nat * (Point * Point) => snd (snd row))
                   (numbered_pairs (state (handle ev s)))
               = pts_other (state (handle ev s))).
  { unfold numbered_pairs.
    rewrite <- (map_map snd snd), map_snd_enumerate. exact Z2. }
  assert (Lr : length (numbered_pairs (state (handle ev s)))
               = length (pts_center (state (handle ev s)))).
  { rewrite <- E1, length_map. reflexivity. }
  exists (numbered_pairs (state (handle ev s))).
  split; [exact T|].
  split; [unfold numbered_pairs; rewrite map_fst_enumerate, length_enumerate;
          reflexivity|].
  split; [exact E1|]. split; [exact E2|].
  split; [rewrite Dr; unfold frame_of; rewrite Hw, Hn, Lr; reflexivity|].
  split; [rewrite S; unfold frame_of; cbn [artists]; rewrite Hw; reflexivity|].
  rewrite D. unfold json_of. rewrite Hname.
  rewrite <- (map_map (fun row : nat * (Point * Point) => fst (snd row))
                      as_float_list),
          <- (map_map (fun row : nat * (Point * Point) => snd (snd row))
                      as_float_list), E1, E2.
  reflexivity.
Qed.

Lemma snapshot_matches_last_frame_witness :
  exists rows : list (nat * (Point * Point)),
    tables (output (handle (click 430 70) (run [click 50 60] (demo 1))))
    = [rows]
    /\ map fst rows = seq 1 (length rows)
    /\ snapshots (output (handle (click 430 70) (run [click 50 60] (demo 1))))
       = [flat_map (pair_artists 400) rows].
Proof.
  destruct (snapshot_matches_last_frame
              (run [click 50 60] (demo 1)) (click 430 70))
    as (rows & H1 & H2 & _ & _ & _ & H6 & _).
  - apply reachable_run, reach_init.
  - reflexivity.
  - exists rows. split; [exact H1|]. split; [exact H2 | exact H6].
Defined.

(** X8.  The number printed with a picked point is the number of its pair.
    In a reachable state a click prints a left pick only when it appends a
    left point, and the number is then one more than the pairs committed so
    far; it prints a right pick only when it appends a right point, and the
    number is then the number of the pair completed, the one printed with
    its left point.  An accepted click prints exactly that pick first. *)
Theorem picked_numbers_are_pair_numbers (s : PointSelector) (x y : float) :
  reachable s ->
  let o := onclick (InAxes x y) s in
  let w := float_of_int (w1 s) in
  (forall n x' y',
      In (Print (PickedLeft n x' y')) (output o) ->
      click_state s = 0 /\ (x <? w)%float = true
      /\ n = S (length (pts_other s))
      /\ n = length (pts_center (state o)))
  /\ (forall n x' y',
         In (Print (PickedRight n x' y')) (output o) ->
         click_state s = 1 /\ (w <=? x)%float = true
         /\ n = length (pts_center s)
         /\ n = length (pts_other (state o)))
  /\ (click_state s = 0 -> (x <? w)%float = true ->
      exists x' y' rest,
        output o = Print (PickedLeft (S (length (pts_other s))) x' y') :: rest)
  /\ (click_state s = 1 -> (w <=? x)%float = true ->
      exists x' y' rest,
        output o = Print (PickedRight (length (pts_center s)) x' y') :: rest).
Proof.
  intros R. cbn zeta.
  destruct (reachable_paired s R) as [[Hc Hl]|[Hc Hl]].
  - destruct (x <? float_of_int (w1 s))%float eqn:Hx.
    + rewrite (onclick_left s x y Hc Hx). cbn [state output].
      rewrite redraw_outcome. cbn [output In with_points pts_center].
      rewrite length_app, Hl. cbn [length].
      split; [|split; [|split]].
      * intros n x' y' [H|[H|[]]]; try discriminate H.
        injection H as <- <- <-. repeat split; try assumption; lia.
      * intros n x' y' [H|[H|[]]]; discriminate H.
      * intros _ _. do 3 eexists. f_equal. f_equal. f_equal. lia.
      * intros H. congruence.
    + rewrite onclick_ignored; rewrite ?Hc, ?Hx; try reflexivity.
      split; [|split; [|split]]; try (intros n x' y' []);
        intros; congruence.
  - destruct (float_of_int (w1 s) <=? x)%float eqn:Hx.
    + destruct (right_click_output s x y Hc Hx)
        as (Hs & [(_ & _ & _ & Ho)|(_ & _ & Ho)]);
        rewrite Ho, Hs; cbn [with_points pts_other fst];
        rewrite ?save_results_output; cbn [app In];
        rewrite length_app, Hl; cbn [length];
        (split; [|split; [|split]];
         [ intros n x' y' H;
           repeat (destruct H as [H|H]; [discriminate H|]); destruct H
         | intros n x' y' H; destruct H as [H|H];
           [ injection H as <- <- <-; repeat split; try assumption; lia
           | repeat (destruct H as [H|H]; [discriminate H|]); destruct H ]
         | intros H; congruence
         | intros _ _; do 3 eexists; f_equal; f_equal; f_equal; lia ]).
    + rewrite onclick_ignored; rewrite ?Hc, ?Hx; try reflexivity.
      split; [|split; [|split]]; try (intros n x' y' []);
        intros; congruence.
Qed.

Lemma picked_numbers_are_pair_numbers_witness :
  exists x' y' rest,
    output (onclick (InAxes (coord 430) (coord 70)) awaiting_right_demo)
    = Print (PickedRight (length (pts_center awaiting_right_demo)) x' y')
        :: rest.
Proof.
  exact (proj2 (proj2 (proj2 (picked_numbers_are_pair_numbers
                                awaiting_right_demo (coord 430) (coord 70)
                                (reachable_run _ _ (reach_init _ _ _)))))
               eq_refl eq_refl).
Defined.
